(** * Chess counting trainer: the two board scripts

    A shallow embedding of [scripts/randompuzzle.js] (the puzzle viewer) and
    [scripts/randomgame.js] (the random-move player).

    Both scripts are glue around two external collaborators: the chess.js
    rules object ([new Chess], [move], [moves], [fen], ...) and the
    chessboard.js widget ([position], [orientation]).  Neither library is
    part of the repository, so the scripts are embedded over an arbitrary
    rules engine (the record [Chess.Engine]); the widget is modelled by the
    two pieces of state the scripts write to it.  [MiniChess] is a reference
    rules engine on real boards, used to run the scripts on concrete
    puzzles. *)

From Stdlib Require Import ZArith List String Ascii Bool Lia QArith Qround.
From Stdlib Require Import DecimalString.
Import ListNotations.

Local Open Scope string_scope.
Local Open Scope Z_scope.

(** ** JavaScript values shared by both scripts *)

(** Piece colours ['w'] and ['b'] of chess.js. *)
Inductive Color := White | Black.

(** Piece types ['p' 'n' 'b' 'r' 'q' 'k'] of chess.js. *)
Inductive PieceType := Pawn | Knight | Bishop | Rook | Queen | King.

(** A piece descriptor [{type, color}] as returned inside [game.board()]. *)
Record Piece := mkPiece { type : PieceType; color : Color }.

(** [game.board()]: rows of squares, a square being a piece or [null]. *)
Definition Grid := list (list (option Piece)).

Definition Color_eqb (a b : Color) : bool :=
  match a, b with White, White | Black, Black => true | _, _ => false end.

Definition PieceType_eqb (a b : PieceType) : bool :=
  match a, b with
  | Pawn, Pawn | Knight, Knight | Bishop, Bishop
  | Rook, Rook | Queen, Queen | King, King => true
  | _, _ => false
  end.

Definition opposite (c : Color) : Color :=
  match c with White => Black | Black => White end.

(** [s.split(sep)] for a one-character separator: the result always has at
    least one element, and adjacent separators give empty tokens. *)
Fixpoint split (sep : ascii) (s : string) : list string :=
  match s with
  | EmptyString => [EmptyString]
  | String c rest =>
      if Ascii.eqb c sep then EmptyString :: split sep rest
      else match split sep rest with
           | [] => [String c EmptyString]
           | tok :: toks => String c tok :: toks
           end
  end.

Definition space : ascii := " "%char.

(** Truthiness of a JavaScript string: only the empty string is falsy. *)
Definition truthy (s : string) : bool :=
  match s with EmptyString => false | String _ _ => true end.

(** [arr[i]] for an integer index; [None] is [undefined]. *)
Definition index {A : Type} (arr : list A) (i : Z) : option A :=
  if i <? 0 then None else nth_error arr (Z.to_nat i).

(** [arr.length]. *)
Definition len {A : Type} (arr : list A) : Z := Z.of_nat (List.length arr).

(** Number to string conversion of a template literal, for integers. *)
Definition show (n : Z) : string := NilZero.string_of_int (Z.to_int n).

(** [Math.floor(r * n)] for a draw [r] of [Math.random()] and an array
    length [n].  The draw is a rational; rounding of the double-precision
    product is not modelled. *)
Definition random_index (r : Q) (n : Z) : Z := Qfloor (r * inject_Z n)%Q.

(** ** The rules object of chess.js, as the scripts use it *)

Module Chess.

(** The argument of [game.move]. *)
Inductive MoveArg :=
| Str (s : string) (sloppy : bool)         (* move("e2e4", {sloppy: true}) or move(s) *)
| Obj (from to promotion : string)         (* move({from, to, promotion}) *)
| Undefined.                               (* move(arr[i]) with i out of range *)

(** What [game.move] does: it applies the move and returns its details,
    or it leaves the position as it is and either returns [null] or
    throws. *)
Inductive MoveOutcome (G : Type) :=
| Moved (g : G)
| Null
| Throws.
Arguments Moved {G} g.
Arguments Null {G}.
Arguments Throws {G}.

Record Engine := {
  Game : Type;
  (** [new Chess()] *)
  initial : Game;
  (** [new Chess(fen)]; [None] when the constructor throws *)
  create : string -> option Game;
  (** [game.moves()] *)
  moves : Game -> list string;
  (** [game.move(m)] *)
  move : Game -> MoveArg -> MoveOutcome Game;
  (** [game.isGameOver()] *)
  isGameOver : Game -> bool;
  (** [game.turn()] *)
  turn : Game -> Color;
  (** [game.fen()] *)
  fen : Game -> string;
  (** [game.board()] *)
  board : Game -> Grid
}.

End Chess.

(** ** A monad for event handlers: global state and exceptions

    A handler runs on the globals of its script; when it throws, the
    assignments made so far stay. *)

Inductive Completion (S A : Type) :=
| Normal (a : A) (s : S)
| Thrown (s : S).
Arguments Normal {S A} a s.
Arguments Thrown {S A} s.

Definition M (S A : Type) := S -> Completion S A.

Definition ret {S A} (a : A) : M S A := fun s => Normal a s.

Definition bind {S A B} (m : M S A) (k : A -> M S B) : M S B :=
  fun s => match m s with
           | Normal a s' => k a s'
           | Thrown s' => Thrown s'
           end.

Definition throw {S A} : M S A := fun s => Thrown s.

(** [try { body } catch (e) { handler }] *)
Definition try_catch {S A} (body handler : M S A) : M S A :=
  fun s => match body s with
           | Normal a s' => Normal a s'
           | Thrown s' => handler s'
           end.

Definition gets {S A} (f : S -> A) : M S A := fun s => Normal (f s) s.

Definition modify {S} (f : S -> S) : M S unit := fun s => Normal tt (f s).

(** The globals left behind by a handler, whether it returned or threw. *)
Definition final {S A} (c : Completion S A) : S :=
  match c with Normal _ s => s | Thrown s => s end.

Definition threw {S A} (c : Completion S A) : bool :=
  match c with Normal _ _ => false | Thrown _ => true end.

Declare Scope js_scope.
Delimit Scope js_scope with js.
Notation "x <- m ;; k" := (bind m (fun x => k))
  (at level 61, m at next level, right associativity) : js_scope.
Notation "m ;; k" := (bind m (fun _ => k))
  (at level 61, right associativity) : js_scope.

(** ** scripts/randompuzzle.js *)

Module RandomPuzzle.

(** *** The chessboard.js widget and the page *)

Inductive Orientation := orient_white | orient_black.

(** The widget, as far as the script drives it: the position last pushed
    with [board.position(...)] and the side set with
    [board.orientation(...)]. *)
Record Chessboard := mkChessboard {
  position : string;
  orientation : Orientation
}.

(** The side whose pieces the widget draws at the bottom. *)
Definition bottom (o : Orientation) : Color :=
  match o with orient_white => White | orient_black => Black end.

(** [{ white, black }] *)
Record Material := mkMaterial { white : Z; black : Z }.

Inductive DiffClass := positive | negative | neutral.

(** The material panel: [#material-display] and its six cells. *)
Record MaterialDisplay := mkMaterialDisplay {
  visible : bool;
  start_white : Z;
  start_black : Z;
  end_white : Z;
  end_black : Z;
  diff_white : string * DiffClass;
  diff_black : string * DiffClass
}.

(** The elements of the page that the script writes.  They are static
    markup of the page and are taken to exist. *)
Record Document := mkDocument {
  move_info : string;            (* #move-info textContent *)
  btn_start : bool;              (* #btn-start disabled *)
  btn_prev : bool;               (* #btn-prev disabled *)
  btn_next : bool;               (* #btn-next disabled *)
  btn_end : bool;                (* #btn-end disabled *)
  material_display : MaterialDisplay
}.

(** Callbacks handed to [setTimeout]. *)
Inductive Callback := playFirstMove.

(** What [config.onDrop] returns to the widget: ['snapback'] puts the
    dragged piece back on its source square. *)
Inductive DropAction := snapback.

(** *** Material calculation constants *)

Definition MATERIAL_VALUES (t : PieceType) : Z :=
  match t with
  | Pawn => 1
  | Knight => 3
  | Bishop => 3
  | Rook => 5
  | Queen => 9
  | King => 0
  end.

Definition no_material : Material := mkMaterial 0 0.

(** The body of the inner loop of [calculateMaterial] for one square. *)
Definition count_square (cells : list (option Piece)) (acc : Material) (col : nat)
  : Material :=
  match nth_error cells col with
  | Some (Some piece) =>
      let value := MATERIAL_VALUES (type piece) in
      match color piece with
      | White => mkMaterial (white acc + value) (black acc)
      | Black => mkMaterial (white acc) (black acc + value)
      end
  | Some None => acc        (* null: an empty square *)
  | None => acc             (* undefined is falsy as well *)
  end.

(** The body of the outer loop; [None] when [board[row]] is undefined,
    so that [board[row][col]] throws. *)
Definition count_row (b : Grid) (acc : option Material) (row : nat) : option Material :=
  match acc with
  | None => None
  | Some m =>
      match nth_error b row with
      | Some cells => Some (fold_left (count_square cells) (seq 0 8) m)
      | None => None
      end
  end.

Definition count_grid (b : Grid) : option Material :=
  fold_left (count_row b) (seq 0 8) (Some no_material).

(** [try { return body } catch (error) { return fallback }] around code
    without side effects; [None] is a thrown exception. *)
Definition try_return {A : Type} (body : option A) (fallback : A) : A :=
  match body with
  | Some a => a
  | None => fallback
  end.

Section Script.

Context (E : Chess.Engine).

(** The top-level variables of the script, the page and the pending
    timers. *)
Record Globals := mkGlobals {
  board : Chessboard;
  game : option (Chess.Game E);                 (* null before the first load *)
  puzzleMoves : list string;
  currentMoveIndex : Z;
  originalFen : option string;         (* null before the first load *)
  document : Document;
  timers : list (Callback * Z)
}.

Definition set_board (b : Chessboard) (s : Globals) : Globals :=
  mkGlobals b (game s) (puzzleMoves s) (currentMoveIndex s) (originalFen s)
            (document s) (timers s).
Definition set_game (g : option (Chess.Game E)) (s : Globals) : Globals :=
  mkGlobals (board s) g (puzzleMoves s) (currentMoveIndex s) (originalFen s)
            (document s) (timers s).
Definition set_puzzleMoves (m : list string) (s : Globals) : Globals :=
  mkGlobals (board s) (game s) m (currentMoveIndex s) (originalFen s)
            (document s) (timers s).
Definition set_currentMoveIndex (i : Z) (s : Globals) : Globals :=
  mkGlobals (board s) (game s) (puzzleMoves s) i (originalFen s)
            (document s) (timers s).
Definition set_originalFen (f : option string) (s : Globals) : Globals :=
  mkGlobals (board s) (game s) (puzzleMoves s) (currentMoveIndex s) f
            (document s) (timers s).
Definition set_document (d : Document) (s : Globals) : Globals :=
  mkGlobals (board s) (game s) (puzzleMoves s) (currentMoveIndex s) (originalFen s)
            d (timers s).
Definition set_timers (t : list (Callback * Z)) (s : Globals) : Globals :=
  mkGlobals (board s) (game s) (puzzleMoves s) (currentMoveIndex s) (originalFen s)
            (document s) t.

Local Open Scope js_scope.

(** [new Chess(fen)]; the constructor throws on [null]. *)
Definition new_Chess (fen : option string) : M Globals (Chess.Game E) :=
  match fen with
  | Some f => match Chess.create E f with
              | Some g => ret g
              | None => throw
              end
  | None => throw
  end.

(** [game.move(arg)] on the global [game]: [true] for a move object,
    [false] for [null]. *)
Definition game_move (arg : Chess.MoveArg) : M Globals bool :=
  fun s => match game s with
           | None => Thrown s
           | Some g =>
               match Chess.move E g arg with
               | Chess.Moved g' => Normal true (set_game (Some g') s)
               | Chess.Null => Normal false s
               | Chess.Throws => Thrown s
               end
           end.

(** [game.fen()] on the global [game]. *)
Definition game_fen : M Globals string :=
  fun s => match game s with
           | None => Thrown s
           | Some g => Normal (Chess.fen E g) s
           end.

(** [board.position(p)] *)
Definition board_position (p : string) : M Globals unit :=
  modify (fun s => set_board (mkChessboard p (orientation (board s))) s).

(** [board.orientation(o)] *)
Definition board_orientation (o : Orientation) : M Globals unit :=
  modify (fun s => set_board (mkChessboard (position (board s)) o) s).

(** [setTimeout(f, delay)] *)
Definition setTimeout (f : Callback) (delay : Z) : M Globals unit :=
  modify (fun s => set_timers (timers s ++ [(f, delay)])%list s).

(** [puzzleMoves[i]] as an argument of [game.move(..., { sloppy: true })]. *)
Definition sloppy (arr : list string) (i : Z) : Chess.MoveArg :=
  match index arr i with
  | Some m => Chess.Str m true
  | None => Chess.Undefined
  end.

(** *** Material calculation functions *)

Definition calculateMaterial (fen : string) : Material :=
  try_return
    (match Chess.create E fen with
     | Some game => count_grid (Chess.board E game)
     | None => None
     end)
    no_material.

(** The loop over [moveArray]: the rules object it leaves. *)
Fixpoint play_moves (game : Chess.Game E) (moveArray : list string)
  : Chess.Game E :=
  match moveArray with
  | [] => game
  | move :: rest =>
      if truthy move && (4 <=? Z.of_nat (String.length move)) then
        match Chess.move E game (Chess.Str move true) with
        | Chess.Moved game' => play_moves game' rest
        | Chess.Null => play_moves game rest
        | Chess.Throws => game            (* catch: break *)
        end
      else play_moves game rest
  end.

Definition playMovesAndCalculateMaterial (startFen moves : string) : Material :=
  try_return
    (match Chess.create E startFen with
     | Some game =>
         let moveArray := split space moves in
         Some (calculateMaterial (Chess.fen E (play_moves game moveArray)))
     | None => None
     end)
    no_material.

(** *** UI update functions *)

Definition diff_text (d : Z) : string := (if 0 <? d then "+" else "") ++ show d ++ " pts".

Definition diff_class (d : Z) : DiffClass :=
  if 0 <? d then positive else if d <? 0 then negative else neutral.

Definition displayMaterialAnalysis (startMaterial endMaterial : Material)
           (whiteDiff blackDiff : Z) : M Globals unit :=
  modify (fun s =>
    let d := document s in
    set_document
      (mkDocument (move_info d) (btn_start d) (btn_prev d) (btn_next d) (btn_end d)
         (mkMaterialDisplay true
            (white startMaterial) (black startMaterial)
            (white endMaterial) (black endMaterial)
            (diff_text whiteDiff, diff_class whiteDiff)
            (diff_text blackDiff, diff_class blackDiff))) s).

Definition updateButtonStates : M Globals unit :=
  modify (fun s =>
    let d := document s in
    let c := currentMoveIndex s in
    let n := len (puzzleMoves s) in
    set_document
      (mkDocument (move_info d)
                  (c =? -1) (c <=? -1) (n - 1 <=? c) (n - 1 <=? c)
                  (material_display d)) s).

Definition move_text (c : Z) (moves : list string) : string :=
  if c =? -1 then "Position: Starting position"
  else if len moves <=? c then "Position: After all moves"
  else "Move " ++ show (c + 1) ++ ": "
         ++ match index moves c with Some m => m | None => "undefined" end.

Definition updateMoveDisplay : M Globals unit :=
  modify (fun s =>
    let d := document s in
    set_document
      (mkDocument (move_text (currentMoveIndex s) (puzzleMoves s))
                  (btn_start d) (btn_prev d) (btn_next d) (btn_end d)
                  (material_display d)) s) ;;
  updateButtonStates.

Definition createNavigationControls : M Globals unit := updateMoveDisplay.

(** *** Chessboard configuration: [config.onDrop] *)

Definition onDrop (source target : string) : M Globals DropAction :=
  try_catch
    (move <- game_move (Chess.Obj source target "q") ;;
     if move then updateMoveDisplay ;; ret snapback
     else ret snapback)
    (ret snapback).

(** *** Navigation functions *)

Definition goToStart : M Globals unit :=
  modify (set_currentMoveIndex (-1)) ;;
  f <- gets originalFen ;;
  g <- new_Chess f ;;
  modify (set_game (Some g)) ;;
  (* null does not get here: the constructor has thrown on it *)
  board_position (match f with Some p => p | None => "null" end) ;;
  updateMoveDisplay.

(** [for (let i = first; i <= currentMoveIndex; i++)
       game.move(puzzleMoves[i], { sloppy: true })]
    with [count] iterations left. *)
Fixpoint replay_loop (i : Z) (count : nat) : M Globals unit :=
  match count with
  | O => ret tt
  | S count' =>
      moves <- gets puzzleMoves ;;
      _ <- game_move (sloppy moves i) ;;
      replay_loop (i + 1) count'
  end.

(** The iterations of the loop from [0] up to [currentMoveIndex]. *)
Definition replay : M Globals unit :=
  c <- gets currentMoveIndex ;;
  replay_loop 0 (Z.to_nat (c + 1)).

Definition previousMove : M Globals unit :=
  c <- gets currentMoveIndex ;;
  if -1 <? c then
    modify (set_currentMoveIndex (c - 1)) ;;
    c' <- gets currentMoveIndex ;;
    if c' =? -1 then goToStart
    else
      f <- gets originalFen ;;
      g <- new_Chess f ;;
      modify (set_game (Some g)) ;;
      replay ;;
      p <- game_fen ;;
      board_position p ;;
      updateMoveDisplay
  else ret tt.

Definition nextMove : M Globals unit :=
  c <- gets currentMoveIndex ;;
  moves <- gets puzzleMoves ;;
  if c <? len moves - 1 then
    modify (set_currentMoveIndex (c + 1)) ;;
    c' <- gets currentMoveIndex ;;
    _ <- game_move (sloppy moves c') ;;
    p <- game_fen ;;
    board_position p ;;
    updateMoveDisplay
  else ret tt.

Definition goToEnd : M Globals unit :=
  moves <- gets puzzleMoves ;;
  modify (set_currentMoveIndex (len moves - 1)) ;;
  f <- gets originalFen ;;
  g <- new_Chess f ;;
  modify (set_game (Some g)) ;;
  replay ;;
  p <- game_fen ;;
  board_position p ;;
  updateMoveDisplay.

(** *** Puzzle loading functions *)

(** A record of puzzles.json. *)
Record Puzzle := mkPuzzle { FEN : string; Moves : string }.

(** The callback of the 0.8 second timer set by [fetchRandomPuzzle]. *)
Definition playFirstMove_callback : M Globals unit :=
  try_catch
    (moves <- gets puzzleMoves ;;
     _ <- game_move (sloppy moves 0) ;;
     p <- game_fen ;;
     board_position p ;;
     modify (set_currentMoveIndex 0) ;;
     updateMoveDisplay)
    (modify (set_currentMoveIndex (-1))).

(** The material analysis block of [fetchRandomPuzzle]. *)
Definition materialAnalysis (puzzle : Puzzle) : M Globals unit :=
  let first := match split space (Moves puzzle) with m :: _ => m | [] => "" end in
  let firstMoveMaterial := playMovesAndCalculateMaterial (FEN puzzle) first in
  let endMaterial := playMovesAndCalculateMaterial (FEN puzzle) (Moves puzzle) in
  let whiteDiff := white endMaterial - white firstMoveMaterial in
  let blackDiff := black endMaterial - black firstMoveMaterial in
  displayMaterialAnalysis firstMoveMaterial endMaterial whiteDiff blackDiff.

(** [fetchRandomPuzzle], run from the point where the awaited fetch
    settles: [fetched] is the parsed puzzles.json, or [None] when the
    fetch or the parse fails; [r] is the draw of [Math.random()]. *)
Definition fetchRandomPuzzle (fetched : option (list Puzzle)) (r : Q) : M Globals unit :=
  try_catch
    (match fetched with
     | None => throw
     | Some data =>
         match index data (random_index r (len data)) with
         | None => throw                  (* puzzle is undefined *)
         | Some puzzle =>
             modify (set_originalFen (Some (FEN puzzle))) ;;
             modify (set_currentMoveIndex (-1)) ;;
             g <- new_Chess (Some (FEN puzzle)) ;;
             modify (set_game (Some g)) ;;
             (match Chess.turn E g with
              | Black => board_orientation orient_white
              | White => board_orientation orient_black
              end) ;;
             modify (set_puzzleMoves (split space (Moves puzzle))) ;;
             board_position (FEN puzzle) ;;
             moves <- gets puzzleMoves ;;
             (if (0 <? len moves)
                   && match index moves 0 with Some m => truthy m | None => false end
              then setTimeout playFirstMove 800
              else ret tt) ;;
             createNavigationControls ;;
             try_catch (materialAnalysis puzzle) (ret tt)
         end
     end)
    (board_position "start").

(** *** The page as an event system *)

Inductive Event :=
| click_start                       (* #btn-start *)
| click_prev                        (* #btn-prev *)
| click_next                        (* #btn-next *)
| click_end                         (* #btn-end *)
| drop (source target : string)     (* a piece dragged and dropped *)
| timeout.                          (* the oldest pending timer fires *)

Definition run_callback (f : Callback) : M Globals unit :=
  match f with playFirstMove => playFirstMove_callback end.

(** One event: the globals after its handler, whether it returned or
    threw.  A drop leaves the widget as it is, since [onDrop] answers
    [snapback]. *)
Definition handle (s : Globals) (e : Event) : Globals :=
  match e with
  | click_start => final (goToStart s)
  | click_prev => final (previousMove s)
  | click_next => final (nextMove s)
  | click_end => final (goToEnd s)
  | drop source target => final (onDrop source target s)
  | timeout =>
      match timers s with
      | [] => s
      | (f, _) :: rest => final (run_callback f (set_timers rest s))
      end
  end.

Definition run (s : Globals) (events : list Event) : Globals :=
  fold_left handle events s.

(** The globals once [initializeChessboard] has created the widget:
    [config] has position ['start'] and orientation ['white']. *)
Definition blank_document : Document :=
  mkDocument "" false false false false
             (mkMaterialDisplay false 0 0 0 0 ("", neutral) ("", neutral)).

Definition initial_globals : Globals :=
  mkGlobals (mkChessboard "start" orient_white) None [] (-1) None
            blank_document [].

(** The globals after a puzzle has been fetched. *)
Definition loaded (puzzle : Puzzle) : Globals :=
  final (fetchRandomPuzzle (Some [puzzle]) 0 initial_globals).

End Script.

Arguments board {E} _.
Arguments game {E} _.
Arguments puzzleMoves {E} _.
Arguments currentMoveIndex {E} _.
Arguments originalFen {E} _.
Arguments document {E} _.
Arguments timers {E} _.

End RandomPuzzle.

(** ** scripts/randomgame.js *)

Module RandomGame.

(** The function handed to [window.setTimeout]. *)
Inductive Callback := makeRandomMove_callback.

Section Script.

Context (E : Chess.Engine).

(** The top-level variables of the script and the pending timers;
    [board] is the position last pushed to the widget. *)
Record Globals := mkGlobals {
  board : string;
  game : Chess.Game E;
  timers : list (Callback * Z)
}.

Local Open Scope js_scope.

(** [game.move(possibleMoves[randomIdx])] *)
Definition game_move (arg : Chess.MoveArg) : M Globals bool :=
  fun s => match Chess.move E (game s) arg with
           | Chess.Moved g' => Normal true (mkGlobals (board s) g' (timers s))
           | Chess.Null => Normal false s
           | Chess.Throws => Thrown s
           end.

Definition board_position (p : string) : M Globals unit :=
  modify (fun s => mkGlobals p (game s) (timers s)).

Definition setTimeout (f : Callback) (delay : Z) : M Globals unit :=
  modify (fun s => mkGlobals (board s) (game s) (timers s ++ [(f, delay)])%list).

(** [makeRandomMove]; [r] is the draw of [Math.random()]. *)
Definition makeRandomMove (r : Q) : M Globals unit :=
  possibleMoves <- gets (fun s => Chess.moves E (game s)) ;;
  over <- gets (fun s => Chess.isGameOver E (game s)) ;;
  if over then ret tt
  else
    let randomIdx := random_index r (len possibleMoves) in
    _ <- game_move (match index possibleMoves randomIdx with
                    | Some m => Chess.Str m false
                    | None => Chess.Undefined
                    end) ;;
    p <- gets (fun s => Chess.fen E (game s)) ;;
    board_position p ;;
    setTimeout makeRandomMove_callback 500.

(** The globals once the script has run to its last line. *)
Definition initial_globals : Globals :=
  mkGlobals "start" (Chess.initial E) [(makeRandomMove_callback, 500)].

(** The oldest pending timer fires, with [r] the draw of its
    invocation; nothing happens when no timer is pending. *)
Definition fire (s : Globals) (r : Q) : Globals :=
  match timers s with
  | [] => s
  | (makeRandomMove_callback, _) :: rest =>
      final (makeRandomMove r (mkGlobals (board s) (game s) rest))
  end.

Definition run (s : Globals) (draws : list Q) : Globals :=
  fold_left fire draws s.


End Script.

Arguments board {E} _.
Arguments game {E} _.
Arguments timers {E} _.

End RandomGame.

(** ** MiniChess: a reference rules engine

    chess.js is not part of the repository.  [MiniChess] implements the
    part of its interface that the scripts call, on real boards: FEN
    loading and printing, the side to move, the 8x8 grid, and legal moves
    (piece movement, captures, double pawn pushes, en passant, promotion,
    castling, no move leaving the own king attacked).  Moves are written in
    coordinate notation (["e2e4"], ["e7e8q"]), which is the notation of the
    puzzle file and what the lenient parser of chess.js accepts; standard
    algebraic notation is not parsed, and [moves] lists coordinate strings.
    Draws by repetition or insufficient material are not detected.

    An illegal move is reported the way the [mode] says: chess.js releases
    before 1.0 return [null], later ones throw.  The puzzle script guards
    against both ([move === null] in [onDrop], [try]/[catch] around the
    setup move). *)

Module MiniChess.

Inductive FailureMode := ReturnsNull | ThrowsError.

(** A square is (file, rank), both in 0..7: (0,0) is a1, (7,7) is h8. *)
Definition Square := (Z * Z)%type.

Record Rights := mkRights { wk : bool; wq : bool; bk : bool; bq : bool }.

Record Position := mkPosition {
  grid : Grid;                 (* row 0 is rank 8, as in game.board() *)
  side : Color;
  rights : Rights;
  ep : option Square;
  halfmove : Z;
  fullmove : Z
}.

Record Move := mkMove { from : Square; to : Square; promotion : option PieceType }.

Definition on_board (sq : Square) : bool :=
  let '(f, r) := sq in (0 <=? f) && (f <? 8) && (0 <=? r) && (r <? 8).

Definition Square_eqb (a b : Square) : bool :=
  (fst a =? fst b) && (snd a =? snd b).

Definition add (a b : Square) : Square := (fst a + fst b, snd a + snd b).

Definition get (g : Grid) (sq : Square) : option Piece :=
  if on_board sq then
    match nth_error g (Z.to_nat (7 - snd sq)) with
    | Some row => match nth_error row (Z.to_nat (fst sq)) with
                  | Some cell => cell
                  | None => None
                  end
    | None => None
    end
  else None.

Fixpoint set_nth {A : Type} (l : list A) (n : nat) (a : A) : list A :=
  match l, n with
  | [], _ => []
  | _ :: t, O => a :: t
  | h :: t, S n' => h :: set_nth t n' a
  end.

Definition put (g : Grid) (sq : Square) (cell : option Piece) : Grid :=
  match nth_error g (Z.to_nat (7 - snd sq)) with
  | Some row =>
      set_nth g (Z.to_nat (7 - snd sq)) (set_nth row (Z.to_nat (fst sq)) cell)
  | None => g
  end.

(** *** FEN *)

Definition piece_of_char (c : ascii) : option Piece :=
  match c with
  | "P"%char => Some (mkPiece Pawn White)   | "p"%char => Some (mkPiece Pawn Black)
  | "N"%char => Some (mkPiece Knight White) | "n"%char => Some (mkPiece Knight Black)
  | "B"%char => Some (mkPiece Bishop White) | "b"%char => Some (mkPiece Bishop Black)
  | "R"%char => Some (mkPiece Rook White)   | "r"%char => Some (mkPiece Rook Black)
  | "Q"%char => Some (mkPiece Queen White)  | "q"%char => Some (mkPiece Queen Black)
  | "K"%char => Some (mkPiece King White)   | "k"%char => Some (mkPiece King Black)
  | _ => None
  end.

Definition type_char (t : PieceType) : ascii :=
  match t with
  | Pawn => "p" | Knight => "n" | Bishop => "b"
  | Rook => "r" | Queen => "q" | King => "k"
  end%char.

Definition upper (c : ascii) : ascii := ascii_of_nat (nat_of_ascii c - 32).

Definition char_of_piece (p : Piece) : ascii :=
  match color p with
  | White => upper (type_char (type p))
  | Black => type_char (type p)
  end.

Definition digit_of_char (c : ascii) : option Z :=
  let n := Z.of_nat (nat_of_ascii c) in
  if (48 <=? n) && (n <=? 57) then Some (n - 48) else None.

Fixpoint parse_row (s : string) : option (list (option Piece)) :=
  match s with
  | EmptyString => Some []
  | String c rest =>
      match parse_row rest with
      | None => None
      | Some cells =>
          match piece_of_char c with
          | Some p => Some (Some p :: cells)
          | None =>
              match digit_of_char c with
              | Some d => if (1 <=? d) && (d <=? 8)
                          then Some (repeat None (Z.to_nat d) ++ cells)%list
                          else None
              | None => None
              end
          end
      end
  end.

Fixpoint parse_rows (rows : list string) : option Grid :=
  match rows with
  | [] => Some []
  | r :: rest =>
      match parse_row r, parse_rows rest with
      | Some cells, Some g =>
          if (List.length cells =? 8)%nat then Some (cells :: g) else None
      | _, _ => None
      end
  end.

Definition parse_placement (s : string) : option Grid :=
  match parse_rows (split "/"%char s) with
  | Some g => if (List.length g =? 8)%nat then Some g else None
  | None => None
  end.

Definition parse_side (s : string) : option Color :=
  if String.eqb s "w" then Some White
  else if String.eqb s "b" then Some Black
  else None.

Fixpoint mem_char (c : ascii) (s : string) : bool :=
  match s with
  | EmptyString => false
  | String d rest => Ascii.eqb c d || mem_char c rest
  end.

Fixpoint all_chars (ok : ascii -> bool) (s : string) : bool :=
  match s with
  | EmptyString => true
  | String c rest => ok c && all_chars ok rest
  end.

Definition parse_rights (s : string) : option Rights :=
  if String.eqb s "-" then Some (mkRights false false false false)
  else if truthy s && all_chars (fun c => mem_char c "KQkq") s
  then Some (mkRights (mem_char "K"%char s) (mem_char "Q"%char s)
                      (mem_char "k"%char s) (mem_char "q"%char s))
  else None.

Definition parse_square (s : string) : option Square :=
  match s with
  | String f (String r EmptyString) =>
      let sq := (Z.of_nat (nat_of_ascii f) - 97, Z.of_nat (nat_of_ascii r) - 49) in
      if on_board sq then Some sq else None
  | _ => None
  end.

Definition parse_ep (s : string) : option (option Square) :=
  if String.eqb s "-" then Some None
  else match parse_square s with
       | Some sq => if (snd sq =? 2) || (snd sq =? 5) then Some (Some sq) else None
       | None => None
       end.

Fixpoint parse_digits (s : string) (acc : Z) : option Z :=
  match s with
  | EmptyString => Some acc
  | String c rest =>
      match digit_of_char c with
      | Some d => parse_digits rest (10 * acc + d)
      | None => None
      end
  end.

Definition parse_number (s : string) : option Z :=
  if truthy s then parse_digits s 0 else None.

(** [load(fen)]: six space-separated fields, each of them well formed. *)
Definition load (fen : string) : option Position :=
  match split space fen with
  | [pl; sd; cs; e; hm; fm] =>
      match parse_placement pl, parse_side sd, parse_rights cs,
            parse_ep e, parse_number hm, parse_number fm with
      | Some g, Some c, Some rt, Some e', Some h, Some f =>
          if 1 <=? f then Some (mkPosition g c rt e' h f) else None
      | _, _, _, _, _, _ => None
      end
  | _ => None
  end.

Fixpoint print_row (cells : list (option Piece)) (empty : Z) : string :=
  match cells with
  | [] => if 0 <? empty then show empty else ""
  | None :: rest => print_row rest (empty + 1)
  | Some p :: rest =>
      (if 0 <? empty then show empty else "")
        ++ String (char_of_piece p) (print_row rest 0)
  end.

Definition print_placement (g : Grid) : string :=
  String.concat "/" (map (fun row => print_row row 0) g).

Definition print_side (c : Color) : string :=
  match c with White => "w" | Black => "b" end.

Definition print_rights (rt : Rights) : string :=
  let s := (if wk rt then "K" else "") ++ (if wq rt then "Q" else "")
           ++ (if bk rt then "k" else "") ++ (if bq rt then "q" else "") in
  if truthy s then s else "-".

Definition print_square (sq : Square) : string :=
  String (ascii_of_nat (Z.to_nat (fst sq + 97)))
    (String (ascii_of_nat (Z.to_nat (snd sq + 49))) EmptyString).

Definition print_ep (e : option Square) : string :=
  match e with Some sq => print_square sq | None => "-" end.

Definition print (p : Position) : string :=
  String.concat " "
    [print_placement (grid p); print_side (side p); print_rights (rights p);
     print_ep (ep p); show (halfmove p); show (fullmove p)].

Definition DEFAULT_POSITION : string :=
  "rnbqkbnr/pppppppp/8/8/8/8/PPPPPPPP/RNBQKBNR w KQkq - 0 1".

Definition empty_position : Position :=
  mkPosition (repeat (repeat None 8) 8) White
             (mkRights false false false false) None 0 1.

Definition default_position : Position :=
  match load DEFAULT_POSITION with
  | Some p => p
  | None => empty_position
  end.

(** *** Attacks *)

Definition knight_steps : list Square :=
  [(1, 2); (2, 1); (2, -1); (1, -2); (-1, -2); (-2, -1); (-2, 1); (-1, 2)].

Definition rook_steps : list Square := [(0, 1); (1, 0); (0, -1); (-1, 0)].

Definition bishop_steps : list Square := [(1, 1); (1, -1); (-1, -1); (-1, 1)].

Definition king_steps : list Square := (rook_steps ++ bishop_steps)%list.

(** Forward direction of a pawn. *)
Definition forward (c : Color) : Z := match c with White => 1 | Black => -1 end.

Definition is_piece (g : Grid) (sq : Square) (t : PieceType) (c : Color) : bool :=
  match get g sq with
  | Some p => PieceType_eqb (type p) t && Color_eqb (color p) c
  | None => false
  end.

(** The first piece met from [sq] (excluded) along direction [d]. *)
Fixpoint first_piece (g : Grid) (sq d : Square) (fuel : nat) : option Piece :=
  match fuel with
  | O => None
  | S fuel' =>
      let sq' := add sq d in
      if on_board sq' then
        match get g sq' with
        | Some p => Some p
        | None => first_piece g sq' d fuel'
        end
      else None
  end.

Definition slider_on (g : Grid) (sq d : Square) (by_ : Color) (t : PieceType) : bool :=
  match first_piece g sq d 7 with
  | Some p => Color_eqb (color p) by_
              && (PieceType_eqb (type p) t || PieceType_eqb (type p) Queen)
  | None => false
  end.

(** Is [sq] attacked by a piece of colour [by_]? *)
Definition attacked (g : Grid) (by_ : Color) (sq : Square) : bool :=
  is_piece g (add sq (1, - forward by_)) Pawn by_
  || is_piece g (add sq (-1, - forward by_)) Pawn by_
  || existsb (fun d => is_piece g (add sq d) Knight by_) knight_steps
  || existsb (fun d => is_piece g (add sq d) King by_) king_steps
  || existsb (fun d => slider_on g sq d by_ Rook) rook_steps
  || existsb (fun d => slider_on g sq d by_ Bishop) bishop_steps.

(** All squares, from a8 to h1. *)
Definition squares : list Square :=
  flat_map (fun r => map (fun f => (Z.of_nat f, 7 - Z.of_nat r)) (seq 0 8)) (seq 0 8).

Definition in_check (g : Grid) (c : Color) : bool :=
  existsb (fun sq => is_piece g sq King c && attacked g (opposite c) sq) squares.

(** *** Move generation *)

Definition free (g : Grid) (sq : Square) : bool :=
  on_board sq && match get g sq with None => true | Some _ => false end.

Definition enemy (g : Grid) (c : Color) (sq : Square) : bool :=
  match get g sq with
  | Some p => Color_eqb (color p) (opposite c)
  | None => false
  end.

(** Targets of a sliding piece of colour [c] from [sq] along [d]. *)
Fixpoint slide (g : Grid) (c : Color) (sq d : Square) (fuel : nat) : list Square :=
  match fuel with
  | O => []
  | S fuel' =>
      let sq' := add sq d in
      if free g sq' then sq' :: slide g c sq' d fuel'
      else if enemy g c sq' then [sq'] else []
  end.

Definition step_targets (g : Grid) (c : Color) (sq : Square) (steps : list Square)
  : list Square :=
  filter (fun t => free g t || enemy g c t) (map (add sq) steps).

Definition promotions (c : Color) (a b : Square) : list Move :=
  if snd b =? (match c with White => 7 | Black => 0 end)
  then map (fun t => mkMove a b (Some t)) [Queen; Rook; Bishop; Knight]
  else [mkMove a b None].

Definition pawn_moves (p : Position) (c : Color) (sq : Square) : list Move :=
  let g := grid p in
  let one := add sq (0, forward c) in
  let two := add one (0, forward c) in
  let home := match c with White => 1 | Black => 6 end in
  let takes t :=
    enemy g c t || match ep p with Some e => Square_eqb e t | None => false end in
  ((if free g one then promotions c sq one else [])
     ++ (if free g one && free g two && (snd sq =? home) then [mkMove sq two None] else [])
     ++ flat_map (fun t => if on_board t && takes t then promotions c sq t else [])
          [add sq (-1, forward c); add sq (1, forward c)])%list.

Definition castle_moves (p : Position) (c : Color) (sq : Square) : list Move :=
  let g := grid p in
  let r := match c with White => 0 | Black => 7 end in
  let safe := fun s => negb (attacked g (opposite c) s) in
  let short := match c with White => wk (rights p) | Black => bk (rights p) end in
  let long := match c with White => wq (rights p) | Black => bq (rights p) end in
  if Square_eqb sq (4, r) then
    ((if short && free g (5, r) && free g (6, r)
         && safe (4, r) && safe (5, r) && safe (6, r)
      then [mkMove sq (6, r) None] else [])
       ++ (if long && free g (3, r) && free g (2, r) && free g (1, r)
              && safe (4, r) && safe (3, r) && safe (2, r)
           then [mkMove sq (2, r) None] else []))%list
  else [].

Definition piece_moves (p : Position) (sq : Square) : list Move :=
  let g := grid p in
  let c := side p in
  let plain := map (fun t => mkMove sq t None) in
  match get g sq with
  | None => []
  | Some pc =>
      if Color_eqb (color pc) c then
        match type pc with
        | Pawn => pawn_moves p c sq
        | Knight => plain (step_targets g c sq knight_steps)
        | Bishop => plain (flat_map (fun d => slide g c sq d 7) bishop_steps)
        | Rook => plain (flat_map (fun d => slide g c sq d 7) rook_steps)
        | Queen => plain (flat_map (fun d => slide g c sq d 7) king_steps)
        | King => (plain (step_targets g c sq king_steps) ++ castle_moves p c sq)%list
        end
      else []
  end.

(** The position after a move of the side to move. *)
Definition make (p : Position) (m : Move) : Position :=
  let g := grid p in
  let c := side p in
  let a := from m in
  let b := to m in
  let moved := get g a in
  let pawn := is_piece g a Pawn c in
  let king := is_piece g a King c in
  let capture := match get g b with Some _ => true | None => false end in
  let en_passant :=
    pawn && negb capture && negb (fst a =? fst b) in
  let placed := match promotion m, moved with
                | Some t, Some _ => Some (mkPiece t c)
                | _, _ => moved
                end in
  let g1 := put (put g a None) b placed in
  let g2 := if en_passant then put g1 (fst b, snd a) None else g1 in
  let g3 := if king && (fst b - fst a =? 2)
            then put (put g2 (7, snd a) None) (5, snd a) (Some (mkPiece Rook c))
            else if king && (fst b - fst a =? -2)
            then put (put g2 (0, snd a) None) (3, snd a) (Some (mkPiece Rook c))
            else g2 in
  let touches := fun s => Square_eqb a s || Square_eqb b s in
  let rt := rights p in
  let rt' := mkRights (wk rt && negb (touches (4, 0)) && negb (touches (7, 0)))
                      (wq rt && negb (touches (4, 0)) && negb (touches (0, 0)))
                      (bk rt && negb (touches (4, 7)) && negb (touches (7, 7)))
                      (bq rt && negb (touches (4, 7)) && negb (touches (0, 7))) in
  let ep' := if pawn && (Z.abs (snd b - snd a) =? 2)
             then Some (fst a, snd a + forward c) else None in
  mkPosition g3 (opposite c) rt' ep'
             (if pawn || capture then 0 else halfmove p + 1)
             (match c with White => fullmove p | Black => fullmove p + 1 end).

Definition legal_moves (p : Position) : list Move :=
  filter (fun m => negb (in_check (grid (make p m)) (side p)))
         (flat_map (piece_moves p) squares).

Definition print_move (m : Move) : string :=
  print_square (from m) ++ print_square (to m)
    ++ match promotion m with
       | Some t => String (type_char t) EmptyString
       | None => ""
       end.

(** *** The interface of chess.js *)

Definition moves (p : Position) : list string := map print_move (legal_moves p).

Definition promotion_matches (wanted : string) (m : Move) : bool :=
  match promotion m with
  | Some t => String.eqb wanted (String (type_char t) EmptyString)
  | None => true
  end.

(** The legal move a [move] argument stands for, if any. *)
Definition find_move (p : Position) (arg : Chess.MoveArg) : option Move :=
  match arg with
  | Chess.Str s _ =>
      let n := String.length s in
      if ((n =? 4) || (n =? 5))%nat then
        find (fun m => String.eqb (print_square (from m)) (substring 0 2 s)
                       && String.eqb (print_square (to m)) (substring 2 2 s)
                       && (negb (truthy (substring 4 1 s))
                           || promotion_matches (substring 4 1 s) m))
             (legal_moves p)
      else None
  | Chess.Obj a b pr =>
      find (fun m => String.eqb (print_square (from m)) a
                     && String.eqb (print_square (to m)) b
                     && promotion_matches pr m)
           (legal_moves p)
  | Chess.Undefined => None
  end.

Definition move (mode : FailureMode) (p : Position) (arg : Chess.MoveArg)
  : Chess.MoveOutcome Position :=
  match find_move p arg with
  | Some m => Chess.Moved (make p m)
  | None => match mode with
            | ReturnsNull => Chess.Null
            | ThrowsError => Chess.Throws
            end
  end.

Definition isGameOver (p : Position) : bool :=
  match legal_moves p with
  | [] => true
  | _ :: _ => 100 <=? halfmove p
  end.

(** The number of move sequences of length [n] from [p]; used to compare
    the move generator with published counts. *)
Fixpoint perft (n : nat) (p : Position) : Z :=
  match n with
  | O => 1
  | S n' => fold_left (fun acc m => acc + perft n' (make p m)) (legal_moves p) 0
  end.

Definition engine (mode : FailureMode) : Chess.Engine :=
  {| Chess.Game := Position;
     Chess.initial := default_position;
     Chess.create := load;
     Chess.moves := moves;
     Chess.move := move mode;
     Chess.isGameOver := isGameOver;
     Chess.turn := side;
     Chess.fen := print;
     Chess.board := grid |}.

End MiniChess.

(** ** Vocabulary of the properties *)

Module PuzzleSpec.

Import RandomPuzzle.

(** The grid of the standard starting position, as [game.board()] gives
    it: rank 8 first. *)
Definition back_rank (c : Color) : list (option Piece) :=
  map (fun t => Some (mkPiece t c))
      [Rook; Knight; Bishop; Queen; King; Bishop; Knight; Rook].

Definition pawn_rank (c : Color) : list (option Piece) :=
  repeat (Some (mkPiece Pawn c)) 8.

Definition empty_rank : list (option Piece) := repeat None 8.

Definition standard_grid : Grid :=
  [back_rank Black; pawn_rank Black; empty_rank; empty_rank;
   empty_rank; empty_rank; pawn_rank White; back_rank White].

(** What a square contributes to the material of side [c]. *)
Definition square_value (c : Color) (cell : option Piece) : Z :=
  match cell with
  | Some p => if Color_eqb (color p) c then MATERIAL_VALUES (type p) else 0
  | None => 0
  end.

Definition row_total (c : Color) (cells : list (option Piece)) : Z :=
  fold_right Z.add 0 (map (square_value c) cells).

(** The sum of the values of the pieces of one side. *)
Definition side_total (c : Color) (b : Grid) : Z :=
  fold_right Z.add 0 (map (row_total c) b).

(** An 8x8 grid. *)
Definition eight_by_eight (b : Grid) : Prop :=
  List.length b = 8%nat /\ Forall (fun row => List.length row = 8%nat) b.

Section Engine.

Context (E : Chess.Engine).

(** Replaying a list of moves in order on a rules object, as the loops
    of [previousMove] and [goToEnd] do: a move answered by [null]
    leaves the position as it is, a move that throws ends the replay
    ([None]). *)
Fixpoint replay_moves (g : Chess.Game E) (moves : list string)
  : option (Chess.Game E) :=
  match moves with
  | [] => Some g
  | m :: rest =>
      match Chess.move E g (Chess.Str m true) with
      | Chess.Moved g' => replay_moves g' rest
      | Chess.Null => replay_moves g rest
      | Chess.Throws => None
      end
  end.

(** The position that results from replaying [moves[0..c]] against the
    starting position [f], whose rules object is [g0]; with no move to
    replay it is the starting position itself. *)
Definition replayed_position (f : string) (g0 : Chess.Game E)
           (moves : list string) (c : Z) : option string :=
  if c =? -1 then Some f
  else option_map (Chess.fen E) (replay_moves g0 (firstn (Z.to_nat (c + 1)) moves)).

(** The displayed position is the replay of the moves up to the
    cursor. *)
Definition shows_replay (s : Globals E) : Prop :=
  exists f g0,
    originalFen s = Some f
    /\ Chess.create E f = Some g0
    /\ replayed_position f g0 (puzzleMoves s) (currentMoveIndex s)
       = Some (position (board s)).

(** The invariant of navigation behind [shows_replay]: the cursor is in
    range, and the rules object and the widget both hold the replay of
    the moves up to the cursor. *)
Definition in_step (f : string) (g0 : Chess.Game E) (moves : list string)
           (s : Globals E) : Prop :=
  originalFen s = Some f
  /\ puzzleMoves s = moves
  /\ -1 <= currentMoveIndex s <= len moves - 1
  /\ exists g,
      replay_moves g0 (firstn (Z.to_nat (currentMoveIndex s + 1)) moves) = Some g
      /\ game s = Some g
      /\ position (board s)
         = if currentMoveIndex s =? -1 then f else Chess.fen E g.

(** The four navigation buttons. *)
Definition navigation (e : Event) : Prop :=
  match e with
  | click_start | click_prev | click_next | click_end => True
  | drop _ _ | timeout => False
  end.

(** The globals after a navigation function has put the cursor on [c],
    the rules object [g] in [game] and the position [p] on the widget,
    and has refreshed the move text and the buttons. *)
Definition shown_at (s : Globals E) (c : Z) (g : Chess.Game E) (p : string)
  : Globals E :=
  let n := len (puzzleMoves s) in
  mkGlobals E (mkChessboard p (orientation (board s))) (Some g)
            (puzzleMoves s) c (originalFen s)
            (mkDocument (move_text c (puzzleMoves s))
                        (c =? -1) (c <=? -1) (n - 1 <=? c) (n - 1 <=? c)
                        (material_display (document s)))
            (timers s).

(** What the navigation functions never write. *)
Definition frame (s : Globals E)
  : option string * list string * Orientation * list (Callback * Z)
    * MaterialDisplay :=
  (originalFen s, puzzleMoves s, orientation (board s), timers s,
   material_display (document s)).

Definition keeps_frame {A : Type} (m : M (Globals E) A) : Prop :=
  forall s, frame (final (m s)) = frame s.

(** Following the words of the material replay: the tokens of at least
    four characters are applied in order, up to the first one that
    throws. *)
Fixpoint replay_until_throw (g : Chess.Game E) (tokens : list string)
  : Chess.Game E :=
  match tokens with
  | [] => g
  | t :: rest =>
      match Chess.move E g (Chess.Str t true) with
      | Chess.Moved g' => replay_until_throw g' rest
      | Chess.Null => replay_until_throw g rest
      | Chess.Throws => g
      end
  end.

Definition long_enough (token : string) : bool :=
  (4 <=? String.length token)%nat.

Definition material_after_replay (startFen moves : string) : Material :=
  match Chess.create E startFen with
  | None => mkMaterial 0 0
  | Some g =>
      calculateMaterial E
        (Chess.fen E (replay_until_throw g (filter long_enough (split space moves))))
  end.

End Engine.

(** *** Concrete runs

    The scripts are run on [MiniChess] in both of its conventions. *)

Definition null_engine : Chess.Engine := MiniChess.engine MiniChess.ReturnsNull.

Definition throwing_engine : Chess.Engine := MiniChess.engine MiniChess.ThrowsError.

(** 1. e4 e5 2. Nf3 from the standard position. *)
Definition opening_puzzle : Puzzle :=
  mkPuzzle MiniChess.DEFAULT_POSITION "e2e4 e7e5 g1f3".

(** Black to move after 1. e4; the setup move is 1... e5. *)
Definition reply_puzzle : Puzzle :=
  mkPuzzle "rnbqkbnr/pppppppp/8/8/4P3/8/PPPP1PPP/RNBQKBNR b KQkq e3 0 1"
           "e7e5 g1f3 b8c6".

(** A move list whose first move is illegal and whose second is legal. *)
Definition broken_puzzle : Puzzle :=
  mkPuzzle MiniChess.DEFAULT_POSITION "e2e5 e2e4".

(** A move list with an illegal move between two legal ones. *)
Definition interrupted_puzzle : Puzzle :=
  mkPuzzle MiniChess.DEFAULT_POSITION "e2e4 e2e5 e7e5".

End PuzzleSpec.

(** ** scripts/randompuzzle.js: initialization and the DOM ready handler *)

Module Startup.

Import RandomPuzzle.

(** What [initializeChessboard] finds on the page when it runs. *)
Record Environment := mkEnvironment {
  Chessboard_defined : bool;       (* typeof Chessboard !== 'undefined' *)
  Chess_defined : bool;            (* typeof Chess !== 'undefined' *)
  Chessboard_throws : bool         (* Chessboard('myBoard', ...) throws *)
}.

(** Callbacks handed to [setTimeout]. *)
Inductive Callback :=
| initializeChessboard_callback    (* setTimeout(initializeChessboard, ...) *)
| fetchRandomPuzzle_callback.      (* setTimeout(() => { fetchRandomPuzzle(); }, 100) *)

(** The page while the script starts: the global [board], the material
    panel (static markup, taken to exist), the [DOMContentLoaded] listener
    and the pending timers. *)
Record Page := mkPage {
  board : option Chessboard;       (* null until the widget is created *)
  material_hidden : bool;          (* #material-display has display 'none' *)
  listening : bool;                (* initializeChessboard listens to DOMContentLoaded *)
  timers : list (Callback * Z)
}.

Local Open Scope js_scope.

Definition setTimeout (f : Callback) (delay : Z) : M Page unit :=
  modify (fun p => mkPage (board p) (material_hidden p) (listening p)
                          (timers p ++ [(f, delay)])%list).

(** [Chessboard('myBoard', { ...config, position: 'start' })]: [config]
    has orientation ['white']. *)
Definition new_Chessboard (env : Environment) : M Page Chessboard :=
  if Chessboard_throws env then throw
  else ret (mkChessboard "start" orient_white).

Definition initializeChessboard (env : Environment) : M Page unit :=
  try_catch
    (if negb (Chessboard_defined env) then
       setTimeout initializeChessboard_callback 100
     else if negb (Chess_defined env) then
       setTimeout initializeChessboard_callback 100
     else
       modify (fun p => mkPage (board p) true (listening p) (timers p)) ;;
       b <- new_Chessboard env ;;
       modify (fun p => mkPage (Some b) (material_hidden p) (listening p) (timers p)) ;;
       setTimeout fetchRandomPuzzle_callback 100)
    (setTimeout initializeChessboard_callback 200).

(** The page before the script runs. *)
Definition fresh_page : Page := mkPage None false false [].

(** The DOM ready handler at the top level of the script; [loading] is
    [document.readyState === 'loading']. *)
Definition dom_ready_handler (loading : bool) : M Page unit :=
  if loading then
    modify (fun p => mkPage (board p) (material_hidden p) true (timers p))
  else setTimeout initializeChessboard_callback 100.

(** The events of the start-up, each with what the page offers when it
    happens. *)
Inductive Event :=
| DOMContentLoaded (env : Environment)
| timeout (env : Environment).           (* the oldest pending timer fires *)

Definition handle (p : Page) (e : Event) : Page :=
  match e with
  | DOMContentLoaded env =>
      if listening p then final (initializeChessboard env p) else p
  | timeout env =>
      match timers p with
      | [] => p
      | (initializeChessboard_callback, _) :: rest =>
          final (initializeChessboard env
                   (mkPage (board p) (material_hidden p) (listening p) rest))
      | (fetchRandomPuzzle_callback, _) :: rest =>
          (* fetchRandomPuzzle takes over, on the globals of the puzzle *)
          mkPage (board p) (material_hidden p) (listening p) rest
      end
  end.

Definition run (p : Page) (events : list Event) : Page :=
  fold_left handle events p.

(** An environment in which [initializeChessboard] creates the widget. *)
Definition ready (env : Environment) : bool :=
  Chessboard_defined env && Chess_defined env && negb (Chessboard_throws env).

(** The environment of an event. *)
Definition environment (e : Event) : Environment :=
  match e with DOMContentLoaded env | timeout env => env end.

(** The first event that starts [initializeChessboard] after the script
    has run: [DOMContentLoaded] when the document was loading, the 100 ms
    timer otherwise. *)
Definition first_event (loading : bool) (env : Environment) : Event :=
  if loading then DOMContentLoaded env else timeout env.

(** The events that run [initializeChessboard] once for each of the given
    environments: the first event, then one timer after the other. *)
Definition startup_events (loading : bool) (envs : list Environment) : list Event :=
  match envs with
  | [] => []
  | env :: rest => first_event loading env :: map timeout rest
  end.

End Startup.

(** ** More vocabulary: the page and the cursor *)

Module PageSpec.

Import RandomPuzzle PuzzleSpec.

Section Engine.

Context (E : Chess.Engine).

(** The cursor is one of -1, 0, ..., N-1. *)
Definition cursor_in_range (s : Globals E) : Prop :=
  -1 <= currentMoveIndex s <= len (puzzleMoves s) - 1.

(** The move text and the four buttons are those of the cursor. *)
Definition page_in_sync (s : Globals E) : Prop :=
  let c := currentMoveIndex s in
  let n := len (puzzleMoves s) in
  move_info (document s) = move_text c (puzzleMoves s)
  /\ btn_start (document s) = (c =? -1)
  /\ btn_prev (document s) = (c <=? -1)
  /\ btn_next (document s) = (n - 1 <=? c)
  /\ btn_end (document s) = (n - 1 <=? c).

(** A computation that writes neither the cursor nor the move list. *)
Definition keeps_cursor {A : Type} (m : M (Globals E) A) : Prop :=
  forall s, currentMoveIndex (final (m s)) = currentMoveIndex s
            /\ puzzleMoves (final (m s)) = puzzleMoves s.

(** The load fails: the fetch or the parse failed, the collection has no
    record at the drawn index, or the rules object cannot be built from the
    starting position of the record. *)
Definition load_fails (fetched : option (list Puzzle)) (r : Q) : Prop :=
  match fetched with
  | None => True
  | Some data =>
      match index data (random_index r (len data)) with
      | None => True
      | Some puzzle => Chess.create E (FEN puzzle) = None
      end
  end.

(** The first token of a move string: [moves.split(' ')[0]]. *)
Definition first_token (moves : string) : string :=
  match split space moves with m :: _ => m | [] => "" end.

(** What no event after the load writes. *)
Definition puzzle_of (s : Globals E) : option string * list string * Orientation :=
  (originalFen s, puzzleMoves s, orientation (board s)).

End Engine.

(** 1. e4 d5 2. exd5: white wins a pawn. *)
Definition capture_puzzle : Puzzle :=
  mkPuzzle MiniChess.DEFAULT_POSITION "e2e4 d7d5 e4d5".

End PageSpec.

Module GameSpec.

Import RandomGame.

Section Engine.

Context (E : Chess.Engine).

(** The widget shows the rules object: either nothing has been played and
    it still shows ['start'], or it shows [game.fen()]. *)
Definition shows_game (s : Globals E) : Prop :=
  (board s = "start" /\ game s = Chess.initial E)
  \/ board s = Chess.fen E (game s).

(** The argument of [game.move] in [makeRandomMove]:
    [possibleMoves[randomIdx]]. *)
Definition drawn_move (g : Chess.Game E) (r : Q) : Chess.MoveArg :=
  match index (Chess.moves E g) (random_index r (len (Chess.moves E g))) with
  | Some m => Chess.Str m false
  | None => Chess.Undefined
  end.

End Engine.

(** Fool's mate on the reference engine: white is mated. *)
Definition mated : Chess.Game PuzzleSpec.throwing_engine :=
  match MiniChess.load "rnb1kbnr/pppp1ppp/8/4p3/6Pq/5P2/PPPPP2P/RNBQKBNR w KQkq - 1 3" with
  | Some p => p
  | None => MiniChess.empty_position
  end.

End GameSpec.

(** * Properties of the puzzle viewer *)

Module PuzzleProps.

Import RandomPuzzle PuzzleSpec.

(** ** Arrays and strings *)

Lemma split_nonempty (sep : ascii) (s : string) : split sep s <> [].
Proof.
  destruct s as [|c rest]; simpl; [discriminate|].
  destruct (Ascii.eqb c sep); [discriminate|].
  destruct (split sep rest); discriminate.
Qed.

Lemma len_nonneg {A : Type} (l : list A) : 0 <= len l.
Proof. unfold len. lia. Qed.

Lemma len_positive {A : Type} (l : list A) : l <> [] -> 1 <= len l.
Proof. unfold len. destruct l; [congruence|simpl; lia]. Qed.

Lemma len_app {A : Type} (l1 l2 : list A) : len (l1 ++ l2)%list = len l1 + len l2.
Proof. unfold len. rewrite length_app. lia. Qed.

Lemma index_after {A : Type} (pre : list A) (x : A) (post : list A) :
  index (pre ++ x :: post)%list (len pre) = Some x.
Proof.
  unfold index, len.
  destruct (Z.ltb_spec (Z.of_nat (List.length pre)) 0) as [H|_]; [lia|].
  rewrite Nat2Z.id, nth_error_app2, Nat.sub_diag by lia. reflexivity.
Qed.

Lemma index_split {A : Type} (l : list A) (i : Z) :
  0 <= i < len l ->
  exists x, index l i = Some x
            /\ l = (firstn (Z.to_nat i) l ++ x :: skipn (Z.to_nat (i + 1)) l)%list.
Proof.
  unfold index, len. intros Hi.
  destruct (Z.ltb_spec i 0) as [H|_]; [lia|].
  destruct (nth_error l (Z.to_nat i)) as [x|] eqn:Hx.
  - exists x. split; [reflexivity|].
    replace (Z.to_nat (i + 1)) with (S (Z.to_nat i)) by lia.
    revert Hx. generalize (Z.to_nat i) as n. clear Hi.
    induction l as [|a l IH]; intros [|n] Hx; simpl in *; try discriminate.
    + now inversion Hx.
    + f_equal. now apply IH.
  - apply nth_error_None in Hx. lia.
Qed.

Ltac run_js :=
  unfold bind, gets, modify, ret, throw, try_catch, final; simpl.

(** ** The material count *)

Lemma count_square_at (pre : list (option Piece)) (cell : option Piece)
      (post : list (option Piece)) (acc : Material) :
  count_square (pre ++ cell :: post)%list acc (List.length pre)
  = mkMaterial (white acc + square_value White cell)
               (black acc + square_value Black cell).
Proof.
  unfold count_square. rewrite nth_error_app2, Nat.sub_diag by lia. simpl.
  destruct acc as [w b]. destruct cell as [[t []]|]; simpl; f_equal; lia.
Qed.

Lemma count_squares (cells : list (option Piece)) :
  forall (pre : list (option Piece)) (acc : Material),
    fold_left (count_square (pre ++ cells)%list) (seq (List.length pre) (List.length cells)) acc
    = mkMaterial (white acc + row_total White cells)
                 (black acc + row_total Black cells).
Proof.
  induction cells as [|cell cells IH]; intros pre acc; simpl.
  - destruct acc; unfold row_total; simpl; f_equal; lia.
  - rewrite count_square_at.
    replace (pre ++ cell :: cells)%list with ((pre ++ [cell]) ++ cells)%list
      by now rewrite <- app_assoc.
    replace (S (List.length pre)) with (List.length (pre ++ [cell])%list)
      by (rewrite length_app; simpl; lia).
    rewrite IH. unfold row_total. simpl. f_equal; lia.
Qed.

Lemma count_row_at (pre : Grid) (row : list (option Piece)) (post : Grid)
      (acc : Material) :
  List.length row = 8%nat ->
  count_row (pre ++ row :: post)%list (Some acc) (List.length pre)
  = Some (mkMaterial (white acc + row_total White row)
                     (black acc + row_total Black row)).
Proof.
  intros Hrow. unfold count_row.
  rewrite nth_error_app2, Nat.sub_diag by lia. cbn [nth_error].
  rewrite <- Hrow. f_equal. exact (count_squares row [] acc).
Qed.

Lemma count_rows (rows : list (list (option Piece))) :
  Forall (fun row => List.length row = 8%nat) rows ->
  forall (pre : Grid) (acc : Material),
    fold_left (count_row (pre ++ rows)%list) (seq (List.length pre) (List.length rows))
              (Some acc)
    = Some (mkMaterial (white acc + side_total White rows)
                       (black acc + side_total Black rows)).
Proof.
  induction 1 as [|row rows Hrow _ IH]; intros pre acc.
  - destruct acc; unfold side_total; simpl; do 2 f_equal; lia.
  - cbn [List.length seq fold_left]. rewrite count_row_at by assumption.
    replace (pre ++ row :: rows)%list with ((pre ++ [row]) ++ rows)%list
      by now rewrite <- app_assoc.
    replace (S (List.length pre)) with (List.length (pre ++ [row])%list)
      by (rewrite length_app; simpl; lia).
    rewrite IH. unfold side_total. simpl. do 2 f_equal; lia.
Qed.

(** On an 8x8 grid the two loops add up, for each side, the values of its
    pieces. *)
Lemma count_grid_totals (b : Grid) :
  eight_by_eight b ->
  count_grid b = Some (mkMaterial (side_total White b) (side_total Black b)).
Proof.
  intros [Hlen Hrows]. unfold count_grid. rewrite <- Hlen.
  exact (count_rows b Hrows [] no_material).
Qed.

Section Generic.

Context (E : Chess.Engine).

(** ** The navigation functions, one by one *)

Lemma set_game_same (s : Globals E) (g : Chess.Game E) :
  game s = Some g -> set_game E (Some g) s = s.
Proof. destruct s; simpl; intros ->; reflexivity. Qed.

Lemma sloppy_after (pre : list string) (m : string) (post : list string) :
  sloppy (pre ++ m :: post)%list (len pre) = Chess.Str m true.
Proof. unfold sloppy. now rewrite index_after. Qed.

(** The replay loop agrees with [replay_moves] as long as no move
    throws. *)
Lemma replay_loop_completes (todo : list string) :
  forall (pre rest : list string) (s : Globals E) (g g' : Chess.Game E),
    puzzleMoves s = (pre ++ todo ++ rest)%list ->
    game s = Some g ->
    replay_moves E g todo = Some g' ->
    replay_loop E (len pre) (List.length todo) s
    = Normal tt (set_game E (Some g') s).
Proof.
  induction todo as [|m todo IH]; intros pre rest s g g' Hm Hg Hr; simpl in *.
  - inversion Hr; subst. unfold ret. now rewrite set_game_same.
  - unfold bind at 1, gets. unfold bind at 1. unfold game_move.
    rewrite Hm, Hg, sloppy_after.
    assert (Hnext : len (pre ++ [m]) = len pre + 1)
      by (rewrite len_app; reflexivity).
    destruct (Chess.move E g (Chess.Str m true)) as [g1| |] eqn:Hmv;
      [| |discriminate].
    + rewrite <- Hnext.
      rewrite (IH (pre ++ [m])%list rest (set_game E (Some g1) s) g1 g'); auto.
      simpl. rewrite Hm, <- app_assoc. reflexivity.
    + rewrite <- Hnext.
      rewrite (IH (pre ++ [m])%list rest s g g'); auto.
      rewrite Hm, <- app_assoc. reflexivity.
Qed.

Lemma replay_moves_app (l1 l2 : list string) :
  forall g, replay_moves E g (l1 ++ l2)
            = match replay_moves E g l1 with
              | Some g' => replay_moves E g' l2
              | None => None
              end.
Proof.
  induction l1 as [|m l1 IH]; intros g; simpl; [reflexivity|].
  destruct (Chess.move E g (Chess.Str m true)); auto.
Qed.

(** A replay that completes also completes on every prefix. *)
Lemma replay_moves_prefix (moves : list string) (n : nat) (g gN : Chess.Game E) :
  replay_moves E g moves = Some gN ->
  exists g', replay_moves E g (firstn n moves) = Some g'.
Proof.
  rewrite <- (firstn_skipn n moves) at 1. rewrite replay_moves_app.
  destruct (replay_moves E g (firstn n moves)) as [g'|]; [eauto|discriminate].
Qed.

Lemma goToStart_shows (s : Globals E) (f : string) (g0 : Chess.Game E) :
  originalFen s = Some f ->
  Chess.create E f = Some g0 ->
  goToStart E s = Normal tt (shown_at E s (-1) g0 f).
Proof.
  intros Hf Hc. unfold goToStart, new_Chess, board_position, updateMoveDisplay,
    updateButtonStates. run_js.
  rewrite Hf, Hc. reflexivity.
Qed.

Lemma goToEnd_shows (s : Globals E) (f : string) (g0 gN : Chess.Game E) :
  originalFen s = Some f ->
  Chess.create E f = Some g0 ->
  replay_moves E g0 (puzzleMoves s) = Some gN ->
  goToEnd E s
  = Normal tt (shown_at E s (len (puzzleMoves s) - 1) gN (Chess.fen E gN)).
Proof.
  intros Hf Hc Hr. unfold goToEnd, new_Chess, replay.
  unfold bind at 1, gets. unfold bind at 1, modify. unfold bind at 1.
  simpl. rewrite Hf. unfold bind at 1. rewrite Hc. unfold ret at 1.
  unfold bind at 1. simpl. unfold bind at 1. unfold bind at 1. simpl.
  replace (Z.to_nat (len (puzzleMoves s) - 1 + 1))
    with (List.length (puzzleMoves s)) by (unfold len; lia).
  change 0 with (len (@nil string)).
  erewrite replay_loop_completes with (rest := []) (g := g0) (g' := gN);
    [| simpl; now rewrite app_nil_r | reflexivity | assumption ].
  unfold game_fen, board_position, updateMoveDisplay, updateButtonStates.
  run_js. reflexivity.
Qed.

Lemma previousMove_shows (s : Globals E) (f : string) (g0 g : Chess.Game E)
      (c : Z) :
  originalFen s = Some f ->
  Chess.create E f = Some g0 ->
  currentMoveIndex s = c ->
  0 < c <= len (puzzleMoves s) - 1 ->
  replay_moves E g0 (firstn (Z.to_nat c) (puzzleMoves s)) = Some g ->
  previousMove E s = Normal tt (shown_at E s (c - 1) g (Chess.fen E g)).
Proof.
  intros Hf Hc Hcur Hrange Hr. unfold previousMove, new_Chess, replay.
  unfold bind at 1, gets. rewrite Hcur.
  destruct (Z.ltb_spec (-1) c) as [_|H]; [|lia].
  unfold bind at 1, modify. unfold bind at 1. simpl.
  destruct (Z.eqb_spec (c - 1) (-1)) as [H|_]; [lia|].
  unfold bind at 1. simpl. rewrite Hf. unfold bind at 1. rewrite Hc.
  unfold ret at 1. unfold bind at 1. simpl.
  unfold bind at 1. unfold bind at 1. simpl.
  replace (c - 1 + 1) with c by lia.
  pose proof (firstn_skipn (Z.to_nat c) (puzzleMoves s)) as Hsplit.
  assert (Hlen : List.length (firstn (Z.to_nat c) (puzzleMoves s)) = Z.to_nat c)
    by (rewrite length_firstn; unfold len in Hrange; lia).
  rewrite <- Hlen at 1.
  change 0 with (len (@nil string)).
  erewrite replay_loop_completes
    with (rest := skipn (Z.to_nat c) (puzzleMoves s)) (g := g0) (g' := g);
    [| simpl; now rewrite Hsplit | reflexivity | assumption ].
  unfold game_fen, board_position, updateMoveDisplay, updateButtonStates.
  run_js. reflexivity.
Qed.

Lemma previousMove_to_start (s : Globals E) (f : string) (g0 : Chess.Game E) :
  originalFen s = Some f ->
  Chess.create E f = Some g0 ->
  currentMoveIndex s = 0 ->
  previousMove E s = Normal tt (shown_at E s (-1) g0 f).
Proof.
  intros Hf Hc Hcur. unfold previousMove.
  unfold bind at 1, gets. rewrite Hcur. simpl.
  unfold bind at 1, modify. unfold bind at 1. simpl.
  rewrite (goToStart_shows _ f g0) by assumption.
  reflexivity.
Qed.

Lemma nextMove_shows (s : Globals E) (g g' : Chess.Game E) (c : Z) (m : string) :
  currentMoveIndex s = c ->
  c < len (puzzleMoves s) - 1 ->
  index (puzzleMoves s) (c + 1) = Some m ->
  game s = Some g ->
  replay_moves E g [m] = Some g' ->
  nextMove E s = Normal tt (shown_at E s (c + 1) g' (Chess.fen E g')).
Proof.
  intros Hcur Hrange Hm Hg Hr. unfold nextMove.
  unfold bind at 1, gets. unfold bind at 1. rewrite Hcur.
  destruct (Z.ltb_spec c (len (puzzleMoves s) - 1)) as [_|H]; [|lia].
  unfold bind at 1, modify. unfold bind at 1. simpl.
  unfold bind at 1, game_move, sloppy. simpl. rewrite Hm, Hg.
  simpl in Hr.
  destruct (Chess.move E g (Chess.Str m true)) as [g1| |];
    [| |discriminate]; inversion Hr; subst;
    unfold game_fen, board_position, updateMoveDisplay, updateButtonStates;
    run_js; [reflexivity|].
  destruct s; simpl in *; subst; reflexivity.
Qed.

Lemma previousMove_idle (s : Globals E) :
  currentMoveIndex s = -1 -> previousMove E s = Normal tt s.
Proof.
  intros Hc. unfold previousMove, bind, gets. rewrite Hc. reflexivity.
Qed.

Lemma nextMove_idle (s : Globals E) :
  currentMoveIndex s = len (puzzleMoves s) - 1 -> nextMove E s = Normal tt s.
Proof.
  intros Hc. unfold nextMove, bind, gets. rewrite Hc.
  rewrite Z.ltb_irrefl. reflexivity.
Qed.

Lemma shown_at_twice (s : Globals E) c1 g1 p1 c2 g2 p2 :
  shown_at E (shown_at E s c1 g1 p1) c2 g2 p2 = shown_at E s c2 g2 p2.
Proof. reflexivity. Qed.

(** ** What navigation never writes *)

Lemma keeps_ret {A : Type} (a : A) : keeps_frame E (ret a).
Proof. intros s. reflexivity. Qed.

Lemma keeps_throw {A : Type} : keeps_frame E (@throw _ A).
Proof. intros s. reflexivity. Qed.

Lemma keeps_gets {A : Type} (f : Globals E -> A) : keeps_frame E (gets f).
Proof. intros s. reflexivity. Qed.

Lemma keeps_bind {A B : Type} (m : M (Globals E) A) (k : A -> M (Globals E) B) :
  keeps_frame E m -> (forall a, keeps_frame E (k a)) -> keeps_frame E (bind m k).
Proof.
  intros Hm Hk s. unfold bind. specialize (Hm s).
  destruct (m s) as [a s'|s']; simpl in *; [|assumption].
  now rewrite Hk.
Qed.

Lemma keeps_try_catch {A : Type} (body handler : M (Globals E) A) :
  keeps_frame E body -> keeps_frame E handler -> keeps_frame E (try_catch body handler).
Proof.
  intros Hb Hh s. unfold try_catch. specialize (Hb s).
  destruct (body s) as [a s'|s']; simpl in *; [assumption|].
  now rewrite Hh.
Qed.

Lemma keeps_set_currentMoveIndex (c : Z) :
  keeps_frame E (modify (set_currentMoveIndex E c)).
Proof. intros s. reflexivity. Qed.

Lemma keeps_set_game (g : option (Chess.Game E)) :
  keeps_frame E (modify (set_game E g)).
Proof. intros s. reflexivity. Qed.

Lemma keeps_new_Chess (f : option string) : keeps_frame E (new_Chess E f).
Proof.
  intros s. unfold new_Chess. destruct f as [f|]; [|reflexivity].
  destruct (Chess.create E f); reflexivity.
Qed.

Lemma keeps_game_move (arg : Chess.MoveArg) : keeps_frame E (game_move E arg).
Proof.
  intros s. unfold game_move. destruct (game s) as [g|]; [|reflexivity].
  destruct (Chess.move E g arg); reflexivity.
Qed.

Lemma keeps_game_fen : keeps_frame E (game_fen E).
Proof. intros s. unfold game_fen. destruct (game s); reflexivity. Qed.

Lemma keeps_board_position (p : string) : keeps_frame E (board_position E p).
Proof. intros s. reflexivity. Qed.

Lemma keeps_updateMoveDisplay : keeps_frame E (updateMoveDisplay E).
Proof. intros s. reflexivity. Qed.

Create HintDb frame.
#[local] Hint Resolve keeps_ret keeps_throw keeps_gets keeps_set_currentMoveIndex
  keeps_set_game keeps_new_Chess keeps_game_move keeps_game_fen
  keeps_board_position keeps_updateMoveDisplay : frame.

Ltac frame_step :=
  first [ apply keeps_bind; [|intros ?]
        | apply keeps_try_catch
        | match goal with
          | |- keeps_frame _ (if ?b then _ else _) => destruct b
          end
        | solve [auto with frame] ].

Lemma keeps_replay_loop (count : nat) : forall i, keeps_frame E (replay_loop E i count).
Proof.
  induction count as [|count IH]; intros i; simpl; repeat frame_step.
Qed.
#[local] Hint Resolve keeps_replay_loop : frame.

Lemma keeps_goToStart : keeps_frame E (goToStart E).
Proof. unfold goToStart. repeat frame_step. Qed.

Lemma keeps_goToEnd : keeps_frame E (goToEnd E).
Proof. unfold goToEnd, replay. repeat frame_step. Qed.

Lemma keeps_previousMove : keeps_frame E (previousMove E).
Proof.
  unfold previousMove, replay, goToStart. repeat frame_step.
Qed.

Lemma keeps_nextMove : keeps_frame E (nextMove E).
Proof. unfold nextMove. repeat frame_step. Qed.

Lemma keeps_onDrop (source target : string) : keeps_frame E (onDrop E source target).
Proof. unfold onDrop. repeat frame_step. Qed.

Lemma keeps_playFirstMove : keeps_frame E (playFirstMove_callback E).
Proof. unfold playFirstMove_callback. repeat frame_step. Qed.

Lemma shown_at_frame (s1 s2 : Globals E) c g p :
  frame E s1 = frame E s2 -> shown_at E s1 c g p = shown_at E s2 c g p.
Proof.
  unfold frame, shown_at. intros H. inversion H as [[H1 H2 H3 H4 H5]].
  now rewrite H1, H2, H3, H4, H5.
Qed.

Lemma frame_originalFen (s1 s2 : Globals E) :
  frame E s1 = frame E s2 -> originalFen s1 = originalFen s2.
Proof. unfold frame. intros H. now inversion H. Qed.

(** The widget keeps its orientation through every event. *)
Lemma handle_orientation (s : Globals E) (e : Event) :
  orientation (board (handle E s e)) = orientation (board s).
Proof.
  assert (H : forall s1 s2 : Globals E, frame E s1 = frame E s2 ->
              orientation (board s1) = orientation (board s2))
    by (unfold frame; intros s1 s2 H; now inversion H).
  destruct e; simpl.
  - apply H, keeps_goToStart.
  - apply H, keeps_previousMove.
  - apply H, keeps_nextMove.
  - apply H, keeps_goToEnd.
  - apply H, keeps_onDrop.
  - destruct (timers s) as [|[[] d] rest]; [reflexivity|].
    simpl. rewrite (H _ _ (keeps_playFirstMove _)). reflexivity.
Qed.

Lemma run_orientation (events : list Event) :
  forall s, orientation (board (run E s events)) = orientation (board s).
Proof.
  unfold run. induction events as [|e events IH]; intros s; simpl; [reflexivity|].
  rewrite IH. apply handle_orientation.
Qed.

(** One more move on the replay of a prefix is the replay of the next
    prefix. *)
Lemma replay_step (g0 : Chess.Game E) (moves : list string) (c : Z)
      (g g' : Chess.Game E) :
  -1 <= c < len moves - 1 ->
  replay_moves E g0 (firstn (Z.to_nat (c + 1)) moves) = Some g ->
  replay_moves E g0 (firstn (Z.to_nat (c + 1 + 1)) moves) = Some g' ->
  exists m, index moves (c + 1) = Some m /\ replay_moves E g [m] = Some g'.
Proof.
  intros Hc Hr Hg'.
  destruct (index_split moves (c + 1)) as (m & Hm & Hsplit); [lia|].
  exists m. split; [assumption|].
  assert (Hfirst : firstn (Z.to_nat (c + 1 + 1)) moves
                   = (firstn (Z.to_nat (c + 1)) moves ++ [m])%list).
  { rewrite Hsplit at 1.
    assert (Hl : List.length (firstn (Z.to_nat (c + 1)) moves) = Z.to_nat (c + 1))
      by (rewrite length_firstn; unfold len in Hc; lia).
    rewrite firstn_app, Hl.
    replace (Z.to_nat (c + 1 + 1) - Z.to_nat (c + 1))%nat with 1%nat by lia.
    rewrite firstn_firstn.
    replace (Nat.min (Z.to_nat (c + 1 + 1)) (Z.to_nat (c + 1)))
      with (Z.to_nat (c + 1)) by lia.
    reflexivity. }
  rewrite Hfirst, replay_moves_app, Hr in Hg'. exact Hg'.
Qed.

Lemma run_snoc (s : Globals E) (events : list Event) (e : Event) :
  run E s (events ++ [e]) = handle E (run E s events) e.
Proof. unfold run. now rewrite fold_left_app. Qed.

(** [nextMove], [k+1] times from the starting position. *)
Lemma nextMove_steps (g0 : Chess.Game E) (k : nat) :
  forall (s : Globals E) (g : Chess.Game E),
    currentMoveIndex s = -1 ->
    game s = Some g0 ->
    Z.of_nat k <= len (puzzleMoves s) - 1 ->
    replay_moves E g0 (firstn (S k) (puzzleMoves s)) = Some g ->
    run E s (repeat click_next (S k)) = shown_at E s (Z.of_nat k) g (Chess.fen E g).
Proof.
  induction k as [|k IH]; intros s g Hcur Hg Hk Hr.
  - destruct (replay_step g0 (puzzleMoves s) (-1) g0 g) as (m & Hm & H1);
      [lia|reflexivity|exact Hr|].
    simpl. rewrite (nextMove_shows s g0 g (-1) m); try assumption;
      [reflexivity|simpl in Hk; lia].
  - destruct (replay_moves_prefix (firstn (S (S k)) (puzzleMoves s)) (S k) g0 g Hr)
      as [gk Hgk].
    rewrite firstn_firstn in Hgk.
    replace (Nat.min (S k) (S (S k))) with (S k) in Hgk by lia.
    change (repeat click_next (S (S k))) with (click_next :: repeat click_next (S k)).
    rewrite repeat_cons, run_snoc.
    rewrite (IH s gk) by (try assumption; lia).
    unfold handle.
    destruct (replay_step g0 (puzzleMoves s) (Z.of_nat k) gk g) as (m & Hm & H1).
    + lia.
    + now replace (Z.to_nat (Z.of_nat k + 1)) with (S k) by lia.
    + now replace (Z.to_nat (Z.of_nat k + 1 + 1)) with (S (S k)) by lia.
    + rewrite (nextMove_shows _ gk g (Z.of_nat k) m); try assumption;
        try reflexivity; [|simpl; lia].
      simpl. replace (Z.of_nat k + 1) with (Z.pos (Pos.of_succ_nat k)) by lia.
      reflexivity.
Qed.

(** ** Navigation keeps the replay invariant *)

Lemma in_step_shows_replay f g0 moves (s : Globals E) :
  Chess.create E f = Some g0 -> in_step E f g0 moves s -> shows_replay E s.
Proof.
  intros Hc (Hf & Hm & _ & g & Hr & _ & Hp).
  exists f, g0. repeat split; try assumption.
  unfold replayed_position. rewrite Hm.
  destruct (currentMoveIndex s =? -1); [now rewrite Hp|].
  now rewrite Hr, Hp.
Qed.

Lemma in_step_shown_at f g0 moves (s : Globals E) c g :
  originalFen s = Some f ->
  puzzleMoves s = moves ->
  -1 <= c <= len moves - 1 ->
  replay_moves E g0 (firstn (Z.to_nat (c + 1)) moves) = Some g ->
  in_step E f g0 moves
          (shown_at E s c g (if c =? -1 then f else Chess.fen E g)).
Proof.
  intros Hf Hm Hc Hr. unfold in_step; simpl.
  repeat split; try assumption; try lia. exists g. auto.
Qed.

Section Navigation.

Variables (f : string) (g0 gN : Chess.Game E) (moves : list string).
Hypothesis created : Chess.create E f = Some g0.
Hypothesis completes : replay_moves E g0 moves = Some gN.
Hypothesis some_moves : moves <> [].

Lemma in_step_goToStart (s : Globals E) :
  in_step E f g0 moves s -> in_step E f g0 moves (final (goToStart E s)).
Proof.
  intros (Hf & Hm & _). rewrite (goToStart_shows s f g0) by assumption.
  pose proof (len_positive moves some_moves).
  apply (in_step_shown_at f g0 moves s (-1) g0); auto; lia.
Qed.

Lemma in_step_goToEnd (s : Globals E) :
  in_step E f g0 moves s -> in_step E f g0 moves (final (goToEnd E s)).
Proof.
  intros (Hf & Hm & _). pose proof (len_positive moves some_moves) as Hlen.
  rewrite (goToEnd_shows s f g0 gN); try assumption; [|now rewrite Hm].
  simpl. rewrite Hm.
  replace (Chess.fen E gN)
    with (if len moves - 1 =? -1 then f else Chess.fen E gN)
    by (destruct (Z.eqb_spec (len moves - 1) (-1)); [lia|reflexivity]).
  apply in_step_shown_at; auto; try lia.
  replace (Z.to_nat (len moves - 1 + 1)) with (List.length moves)
    by (unfold len; lia).
  now rewrite firstn_all.
Qed.

Lemma in_step_previousMove (s : Globals E) :
  in_step E f g0 moves s -> in_step E f g0 moves (final (previousMove E s)).
Proof.
  intros Hs. pose proof Hs as (Hf & Hm & Hc & g & Hr & Hg & Hp).
  destruct (Z.eq_dec (currentMoveIndex s) (-1)) as [Hneg|Hneg].
  - now rewrite previousMove_idle.
  - destruct (Z.eq_dec (currentMoveIndex s) 0) as [Hzero|Hzero].
    + rewrite (previousMove_to_start s f g0) by assumption.
      pose proof (len_positive moves some_moves).
      apply (in_step_shown_at f g0 moves s (-1) g0); auto; lia.
    + destruct (replay_moves_prefix moves (Z.to_nat (currentMoveIndex s)) g0 gN
                  completes) as [g' Hg'].
      rewrite (previousMove_shows s f g0 g' (currentMoveIndex s));
        try assumption; try reflexivity; try (rewrite Hm; lia);
        [|now rewrite Hm].
      simpl.
      replace (Chess.fen E g')
        with (if currentMoveIndex s - 1 =? -1 then f else Chess.fen E g')
        by (destruct (Z.eqb_spec (currentMoveIndex s - 1) (-1));
            [lia|reflexivity]).
      apply in_step_shown_at; auto; try lia.
      now replace (currentMoveIndex s - 1 + 1) with (currentMoveIndex s) by lia.
Qed.

Lemma replay_moves_next (c : Z) (g : Chess.Game E) :
  -1 <= c < len moves - 1 ->
  replay_moves E g0 (firstn (Z.to_nat (c + 1)) moves) = Some g ->
  exists m g',
    index moves (c + 1) = Some m
    /\ replay_moves E g [m] = Some g'
    /\ replay_moves E g0 (firstn (Z.to_nat (c + 1 + 1)) moves) = Some g'.
Proof.
  intros Hc Hr.
  destruct (replay_moves_prefix moves (Z.to_nat (c + 1 + 1)) g0 gN completes)
    as [g' Hg'].
  destruct (replay_step g0 moves c g g' Hc Hr Hg') as (m & Hm & H1).
  exists m, g'. auto.
Qed.

Lemma in_step_nextMove (s : Globals E) :
  in_step E f g0 moves s -> in_step E f g0 moves (final (nextMove E s)).
Proof.
  intros Hs. pose proof Hs as (Hf & Hm & Hc & g & Hr & Hg & Hp).
  destruct (Z.eq_dec (currentMoveIndex s) (len moves - 1)) as [Hlast|Hlast].
  - rewrite nextMove_idle; [assumption|now rewrite Hm].
  - destruct (replay_moves_next (currentMoveIndex s) g) as (m & g' & Hi & H1 & Hn);
      [lia|assumption|].
    rewrite (nextMove_shows s g g' (currentMoveIndex s) m);
      try assumption; try reflexivity; try (rewrite Hm; assumption || lia).
    simpl.
    replace (Chess.fen E g')
      with (if currentMoveIndex s + 1 =? -1 then f else Chess.fen E g')
      by (destruct (Z.eqb_spec (currentMoveIndex s + 1) (-1));
          [lia|reflexivity]).
    apply in_step_shown_at; auto; lia.
Qed.

Lemma in_step_handle (s : Globals E) (e : Event) :
  navigation e -> in_step E f g0 moves s -> in_step E f g0 moves (handle E s e).
Proof.
  destruct e; simpl; intros Hnav Hs; try contradiction.
  - now apply in_step_goToStart.
  - now apply in_step_previousMove.
  - now apply in_step_nextMove.
  - now apply in_step_goToEnd.
Qed.

Lemma in_step_run (events : list Event) :
  Forall navigation events ->
  forall s, in_step E f g0 moves s -> in_step E f g0 moves (run E s events).
Proof.
  unfold run. induction 1 as [|e events He _ IH]; intros s Hs; simpl; [assumption|].
  apply IH. now apply in_step_handle.
Qed.

(** The setup move, played from the starting position. *)
Lemma in_step_playFirstMove (s : Globals E) :
  in_step E f g0 moves s ->
  currentMoveIndex s = -1 ->
  in_step E f g0 moves (final (playFirstMove_callback E s)).
Proof.
  intros (Hf & Hm & Hc & g & Hr & Hg & Hp) Hcur.
  rewrite Hcur in Hr. simpl in Hr. inversion Hr; subst g.
  destruct (replay_moves_next (-1) g0) as (m & g' & Hi & H1 & Hn);
    [pose proof (len_positive moves some_moves); lia|reflexivity|].
  unfold playFirstMove_callback, try_catch.
  unfold bind at 1, gets. unfold bind at 1, game_move, sloppy.
  rewrite Hm, Hg. simpl in Hi. rewrite Hi. simpl in H1.
  assert (Hshown : in_step E f g0 moves (shown_at E s 0 g' (Chess.fen E g')))
    by (apply (in_step_shown_at f g0 moves s 0 g'); auto;
        pose proof (len_positive moves some_moves); lia).
  destruct (Chess.move E g0 (Chess.Str m true)) as [g1| |];
    [| |discriminate]; inversion H1; subst;
    unfold game_fen, board_position, updateMoveDisplay, updateButtonStates;
    run_js; [exact Hshown|].
  rewrite Hg. simpl.
  replace (set_document E _ _) with (shown_at E s 0 g' (Chess.fen E g'));
    [exact Hshown|].
  destruct s; simpl in *; subst; reflexivity.
Qed.

End Navigation.

(** ** Loading a puzzle *)

Lemma fetch_loads (data : list Puzzle) (r : Q) (puzzle : Puzzle)
      (g0 : Chess.Game E) (s : Globals E) :
  index data (random_index r (len data)) = Some puzzle ->
  Chess.create E (FEN puzzle) = Some g0 ->
  let s' := final (fetchRandomPuzzle E (Some data) r s) in
  originalFen s' = Some (FEN puzzle)
  /\ puzzleMoves s' = split space (Moves puzzle)
  /\ currentMoveIndex s' = -1
  /\ game s' = Some g0
  /\ position (board s') = FEN puzzle
  /\ orientation (board s')
     = match Chess.turn E g0 with
       | Black => orient_white
       | White => orient_black
       end
  /\ timers s'
     = (timers s
          ++ match split space (Moves puzzle) with
             | m :: _ => if truthy m then [(playFirstMove, 800)] else []
             | [] => []
             end)%list.
Proof.
  intros Hi Hc. unfold fetchRandomPuzzle. rewrite Hi.
  unfold new_Chess. rewrite Hc.
  unfold createNavigationControls, updateMoveDisplay, updateButtonStates,
    materialAnalysis, displayMaterialAnalysis, board_orientation, board_position,
    setTimeout.
  generalize (playMovesAndCalculateMaterial E (FEN puzzle) (Moves puzzle)).
  generalize (playMovesAndCalculateMaterial E (FEN puzzle)
                match split space (Moves puzzle) with m :: _ => m | [] => "" end).
  intros m1 m2.
  destruct (split space (Moves puzzle)) as [|m rest] eqn:Hs.
  - run_js; destruct (Chess.turn E g0); simpl;
      rewrite app_nil_r; repeat split; reflexivity.
  - run_js; destruct (Chess.turn E g0); simpl;
      destruct (truthy m); simpl; rewrite ?app_nil_r; repeat split; reflexivity.
Qed.

Lemma fetch_in_step (data : list Puzzle) (r : Q) (puzzle : Puzzle)
      (g0 : Chess.Game E) (s : Globals E) :
  index data (random_index r (len data)) = Some puzzle ->
  Chess.create E (FEN puzzle) = Some g0 ->
  in_step E (FEN puzzle) g0 (split space (Moves puzzle))
          (final (fetchRandomPuzzle E (Some data) r s)).
Proof.
  intros Hi Hc.
  destruct (fetch_loads data r puzzle g0 s Hi Hc) as (Hf & Hm & Hcur & Hg & Hp & _).
  unfold in_step. rewrite Hcur. simpl.
  repeat split; try assumption; try lia.
  - pose proof (len_positive (split space (Moves puzzle)) (split_nonempty _ _)). lia.
  - exists g0. auto.
Qed.

Lemma in_step_set_timers f g0 moves (s : Globals E) (t : list (Callback * Z)) :
  in_step E f g0 moves s -> in_step E f g0 moves (set_timers E t s).
Proof. exact (fun H => H). Qed.

(** ** The navigation cursor and the displayed position *)


(** C2, as amended: when the replay of moves [0..c] from the starting
    position completes without a move that throws, [c+1] calls of
    [nextMove] from cursor -1 leave the same globals (cursor, rules
    object, displayed position) as the replay made by [goToEnd] (for
    the last index) and by [previousMove] (from cursor [c+1]). *)
Theorem replay_agrees_with_stepping (s : Globals E) (f : string)
        (g0 g : Chess.Game E) (c : Z) :
  originalFen s = Some f ->
  Chess.create E f = Some g0 ->
  0 <= c <= len (puzzleMoves s) - 1 ->
  replay_moves E g0 (firstn (Z.to_nat (c + 1)) (puzzleMoves s)) = Some g ->
  let stepped :=
    run E (final (goToStart E s)) (repeat click_next (Z.to_nat (c + 1))) in
  stepped = shown_at E s c g (Chess.fen E g)
  /\ (c = len (puzzleMoves s) - 1 -> goToEnd E s = Normal tt stepped)
  /\ (c < len (puzzleMoves s) - 1 ->
      previousMove E (set_currentMoveIndex E (c + 1) s) = Normal tt stepped).
Proof.
  intros Hf Hc Hrange Hr stepped.
  assert (Hstepped : stepped = shown_at E s c g (Chess.fen E g)).
  { unfold stepped. rewrite (goToStart_shows s f g0) by assumption. simpl final.
    replace (Z.to_nat (c + 1)) with (S (Z.to_nat c)) in * by lia.
    rewrite (nextMove_steps g0 (Z.to_nat c) _ g); simpl; try reflexivity;
      try assumption; try lia.
    now rewrite Z2Nat.id by lia. }
  split; [assumption|]. rewrite Hstepped. split.
  - intros Hlast. subst c.
    replace (Z.to_nat (len (puzzleMoves s) - 1 + 1))
      with (List.length (puzzleMoves s)) in Hr by (unfold len; lia).
    rewrite firstn_all in Hr.
    now rewrite (goToEnd_shows s f g0 g).
  - intros Hbefore.
    rewrite (previousMove_shows _ f g0 g (c + 1)); simpl; try assumption;
      try reflexivity; try lia.
    now replace (c + 1 - 1) with c by lia.
Qed.

(** C9: after [goToStart; goToEnd; goToStart] the widget shows what it
    shows after a single [goToStart], the starting position; all the
    other globals agree as well. *)
Theorem start_end_start (s : Globals E) (f : string) (g0 : Chess.Game E) :
  originalFen s = Some f ->
  Chess.create E f = Some g0 ->
  position (board (run E s [click_start; click_end; click_start]))
  = position (board (run E s [click_start]))
  /\ position (board (run E s [click_start])) = f
  /\ run E s [click_start; click_end; click_start] = run E s [click_start].
Proof.
  intros Hf Hc. simpl.
  rewrite (goToStart_shows s f g0) by assumption. simpl final.
  set (s1 := shown_at E s (-1) g0 f).
  pose proof (keeps_goToEnd s1) as Hframe.
  assert (Hf2 : originalFen (final (goToEnd E s1)) = Some f).
  { rewrite (frame_originalFen _ _ Hframe). exact Hf. }
  rewrite (goToStart_shows _ f g0) by assumption. simpl final.
  rewrite (shown_at_frame _ s1 (-1) g0 f Hframe).
  repeat split; reflexivity.
Qed.

(** C4: loading a puzzle sets the orientation to white when black is to
    move in the starting position and to black when white is to move, so
    the side drawn at the bottom is not the side to move first; no later
    event changes the orientation. *)
Theorem orientation_opposes_first_mover (data : list Puzzle) (r : Q)
        (puzzle : Puzzle) (g0 : Chess.Game E) (s : Globals E) :
  index data (random_index r (len data)) = Some puzzle ->
  Chess.create E (FEN puzzle) = Some g0 ->
  let s' := final (fetchRandomPuzzle E (Some data) r s) in
  orientation (board s')
  = match Chess.turn E g0 with
    | Black => orient_white
    | White => orient_black
    end
  /\ bottom (orientation (board s')) <> Chess.turn E g0
  /\ forall events, bottom (orientation (board (run E s' events))) <> Chess.turn E g0.
Proof.
  intros Hi Hc s'.
  destruct (fetch_loads data r puzzle g0 s Hi Hc) as (_ & _ & _ & _ & _ & Ho & _).
  fold s' in Ho.
  assert (Hb : bottom (orientation (board s')) <> Chess.turn E g0)
    by (rewrite Ho; destruct (Chess.turn E g0); discriminate).
  repeat split; try assumption.
  intros events. now rewrite run_orientation.
Qed.

(** ** The setup move *)

(** A setup move that throws leaves the cursor on -1, and the callback
    returns. *)
Lemma playFirstMove_throws (s : Globals E) (g : Chess.Game E) :
  game s = Some g ->
  Chess.move E g (sloppy (puzzleMoves s) 0) = Chess.Throws ->
  playFirstMove_callback E s = Normal tt (set_currentMoveIndex E (-1) s).
Proof.
  intros Hg Hm. unfold playFirstMove_callback, try_catch, bind, gets, game_move.
  now rewrite Hg, Hm.
Qed.

(** A setup move answered by [null] puts the cursor on 0 although the
    rules object has not moved. *)
Lemma playFirstMove_null (s : Globals E) (g : Chess.Game E) :
  game s = Some g ->
  Chess.move E g (sloppy (puzzleMoves s) 0) = Chess.Null ->
  playFirstMove_callback E s = Normal tt (shown_at E s 0 g (Chess.fen E g)).
Proof.
  intros Hg Hm. unfold playFirstMove_callback, try_catch.
  unfold bind at 1, gets. unfold bind at 1, game_move. rewrite Hg, Hm.
  unfold game_fen, board_position, updateMoveDisplay, updateButtonStates.
  run_js. rewrite Hg. simpl. f_equal.
  destruct s; simpl in *; subst; reflexivity.
Qed.

Lemma playFirstMove_moved (s : Globals E) (g g' : Chess.Game E) :
  game s = Some g ->
  Chess.move E g (sloppy (puzzleMoves s) 0) = Chess.Moved g' ->
  playFirstMove_callback E s = Normal tt (shown_at E s 0 g' (Chess.fen E g')).
Proof.
  intros Hg Hm. unfold playFirstMove_callback, try_catch.
  unfold bind at 1, gets. unfold bind at 1, game_move. rewrite Hg, Hm.
  unfold game_fen, board_position, updateMoveDisplay, updateButtonStates.
  run_js. reflexivity.
Qed.

(** ** Material *)

Lemma play_moves_filter (tokens : list string) :
  forall g, play_moves E g tokens
            = replay_until_throw E g (filter long_enough tokens).
Proof.
  induction tokens as [|t tokens IH]; intros g; simpl; [reflexivity|].
  unfold long_enough at 1.
  assert (Hsame : truthy t && (4 <=? Z.of_nat (String.length t))
                  = (4 <=? String.length t)%nat).
  { destruct t as [|a t]; [reflexivity|]. simpl truthy. rewrite andb_true_l.
    destruct (Nat.leb_spec 4 (String.length (String a t)));
      destruct (Z.leb_spec 4 (Z.of_nat (String.length (String a t))));
      try reflexivity; lia. }
  rewrite Hsame.
  destruct (4 <=? String.length t)%nat; [|apply IH].
  simpl. destruct (Chess.move E g (Chess.Str t true)); auto.
Qed.

(** C10: [playMovesAndCalculateMaterial] always returns a tally: the
    zero tally when the rules object cannot be built from the starting
    position, and otherwise the tally of the position reached by the
    tokens of at least four characters, applied in order up to the first
    one that throws; shorter tokens are never applied. *)
Theorem playMoves_skips_short_and_stops_at_throw (startFen moves : string) :
  playMovesAndCalculateMaterial E startFen moves
  = material_after_replay E startFen moves.
Proof.
  unfold playMovesAndCalculateMaterial, material_after_replay, try_return.
  destruct (Chess.create E startFen) as [g|]; [|reflexivity].
  now rewrite play_moves_filter.
Qed.

(** With only short tokens, no move is applied at all. *)
Lemma playMoves_all_short (startFen moves : string) (g : Chess.Game E) :
  Chess.create E startFen = Some g ->
  forallb (fun t => negb (long_enough t)) (split space moves) = true ->
  playMovesAndCalculateMaterial E startFen moves
  = calculateMaterial E (Chess.fen E g).
Proof.
  intros Hc Hshort. unfold playMovesAndCalculateMaterial, try_return.
  rewrite Hc, play_moves_filter.
  replace (filter long_enough (split space moves)) with (@nil string); [reflexivity|].
  induction (split space moves) as [|t l IH]; [reflexivity|].
  simpl in *. apply andb_prop in Hshort as [Ht Hl].
  destruct (long_enough t); [discriminate|]. now apply IH.
Qed.

Lemma calculateMaterial_totals (fen : string) (g : Chess.Game E) :
  Chess.create E fen = Some g ->
  eight_by_eight (Chess.board E g) ->
  calculateMaterial E fen
  = mkMaterial (side_total White (Chess.board E g))
               (side_total Black (Chess.board E g)).
Proof.
  intros Hc Hb. unfold calculateMaterial. rewrite Hc.
  now rewrite count_grid_totals.
Qed.

(** C3: on a position string from which the rules object builds the
    standard starting grid, [calculateMaterial] returns 39 for white and
    39 for black, the sums of the piece values (pawn 1, knight 3,
    bishop 3, rook 5, queen 9, king 0) of each side. *)
Theorem standard_position_material (fen : string) (g : Chess.Game E) :
  Chess.create E fen = Some g ->
  Chess.board E g = standard_grid ->
  calculateMaterial E fen = mkMaterial 39 39
  /\ side_total White standard_grid = 39
  /\ side_total Black standard_grid = 39
  /\ map MATERIAL_VALUES [Pawn; Knight; Bishop; Rook; Queen; King]
     = [1; 3; 3; 5; 9; 0].
Proof.
  intros Hc Hb. repeat split; try reflexivity.
  rewrite (calculateMaterial_totals fen g Hc); rewrite Hb; [reflexivity|].
  split; [reflexivity|]. repeat constructor.
Qed.

(** ** The ends of the move list *)

(** C7: [previousMove] with the cursor on -1 returns with every global
    (cursor, rules object, widget, page) as it was. *)
Theorem previousMove_at_start_is_noop (s : Globals E) :
  currentMoveIndex s = -1 ->
  previousMove E s = Normal tt s
  /\ handle E s click_prev = s.
Proof.
  intros Hc. simpl. now rewrite previousMove_idle.
Qed.

(** C8: [nextMove] with the cursor on the last index N-1 returns with
    every global (cursor, rules object, widget, page) as it was. *)
Theorem nextMove_at_end_is_noop (s : Globals E) :
  currentMoveIndex s = len (puzzleMoves s) - 1 ->
  nextMove E s = Normal tt s
  /\ handle E s click_next = s.
Proof.
  intros Hc. simpl. now rewrite nextMove_idle.
Qed.

End Generic.

(** ** Runs on concrete puzzles *)



Lemma replay_agrees_with_stepping_witness :
  let s := loaded null_engine opening_puzzle in
  goToEnd null_engine s
  = Normal tt (run null_engine (final (goToStart null_engine s))
                   (repeat click_next (Z.to_nat (2 + 1)))).
Proof.
  intros s.
  pose (g := match game (final (goToEnd null_engine s)) with
             | Some g => g
             | None => MiniChess.default_position
             end).
  destruct (replay_agrees_with_stepping null_engine s MiniChess.DEFAULT_POSITION
              MiniChess.default_position g 2) as (_ & Hend & _);
    [| | | | apply Hend ].
  - vm_compute; reflexivity.
  - vm_compute; reflexivity.
  - vm_compute. split; discriminate.
  - vm_compute; reflexivity.
  - vm_compute; reflexivity.
Defined.

(** C2 fails as stated: with a rules object that throws on an illegal
    move and the move list [e2e5 e2e4], the replay of [goToEnd] stops at
    the first move and leaves the starting position, while two calls of
    [nextMove] from cursor -1 skip the first move and play the second. *)
Lemma throwing_replay_differs_from_stepping :
  let s := loaded throwing_engine broken_puzzle in
  let replayed := final (goToEnd throwing_engine s) in
  let stepped :=
    run throwing_engine (final (goToStart throwing_engine s)) [click_next; click_next] in
  currentMoveIndex replayed = 1
  /\ currentMoveIndex stepped = 1
  /\ option_map (Chess.fen throwing_engine) (game replayed)
     = Some "rnbqkbnr/pppppppp/8/8/8/8/PPPPPPPP/RNBQKBNR w KQkq - 0 1"
  /\ option_map (Chess.fen throwing_engine) (game stepped)
     = Some "rnbqkbnr/pppppppp/8/8/4P3/8/PPPP1PPP/RNBQKBNR b KQkq e3 0 1"
  /\ position (board replayed) <> position (board stepped)
  /\ game replayed <> game stepped.
Proof.
  intros s replayed stepped.
  split; [vm_compute; reflexivity|].
  split; [vm_compute; reflexivity|].
  split; [vm_compute; reflexivity|].
  split; [vm_compute; reflexivity|].
  split; vm_compute; discriminate.
Qed.

Lemma standard_position_material_witness :
  calculateMaterial null_engine MiniChess.DEFAULT_POSITION = mkMaterial 39 39.
Proof.
  apply (standard_position_material null_engine MiniChess.DEFAULT_POSITION
           MiniChess.default_position).
  - vm_compute; reflexivity.
  - vm_compute; reflexivity.
Defined.

Lemma orientation_opposes_first_mover_witness :
  orientation (board (loaded null_engine opening_puzzle)) = orient_black
  /\ orientation (board (loaded null_engine reply_puzzle)) = orient_white.
Proof.
  split.
  - apply (orientation_opposes_first_mover null_engine [opening_puzzle] 0
             opening_puzzle MiniChess.default_position
             (initial_globals null_engine)).
    + vm_compute; reflexivity.
    + vm_compute; reflexivity.
  - pose (g0 := match Chess.create null_engine (FEN reply_puzzle) with
                | Some g => g
                | None => MiniChess.default_position
                end).
    destruct (orientation_opposes_first_mover null_engine [reply_puzzle] 0
                reply_puzzle g0 (initial_globals null_engine)) as (Ho & _).
    + vm_compute; reflexivity.
    + vm_compute; reflexivity.
    + unfold loaded. rewrite Ho. vm_compute; reflexivity.
Defined.

(** C5 fails on the code: with a rules object that answers an illegal
    move by [null], the illegal setup move [e2e5] is not applied, the
    callback does not throw, and the cursor is put on 0. *)
Theorem null_setup_move_advances_cursor :
  let s := loaded null_engine broken_puzzle in
  let s' := handle null_engine s timeout in
  timers s = [(playFirstMove, 800)]
  /\ currentMoveIndex s = -1
  /\ currentMoveIndex s' = 0
  /\ game s' = game s
  /\ position (board s') = MiniChess.DEFAULT_POSITION
  /\ threw (playFirstMove_callback null_engine s) = false.
Proof.
  intros s s'.
  split; [vm_compute; reflexivity|].
  split; [vm_compute; reflexivity|].
  split; [vm_compute; reflexivity|].
  split; [vm_compute; reflexivity|].
  split; vm_compute; reflexivity.
Qed.

(** With a rules object that throws, the same setup move leaves the
    cursor on -1. *)
Lemma throwing_setup_move_keeps_cursor :
  currentMoveIndex (handle throwing_engine (loaded throwing_engine broken_puzzle) timeout)
  = -1.
Proof. vm_compute; reflexivity. Qed.

Lemma previousMove_at_start_is_noop_witness :
  let s := loaded null_engine opening_puzzle in
  previousMove null_engine s = Normal tt s /\ handle null_engine s click_prev = s.
Proof.
  apply previousMove_at_start_is_noop. vm_compute; reflexivity.
Defined.

Lemma nextMove_at_end_is_noop_witness :
  let s := run null_engine (loaded null_engine opening_puzzle) [timeout; click_end] in
  nextMove null_engine s = Normal tt s /\ handle null_engine s click_next = s.
Proof.
  apply nextMove_at_end_is_noop. vm_compute; reflexivity.
Defined.

Lemma start_end_start_witness :
  let s := run null_engine (loaded null_engine opening_puzzle) [timeout; click_next] in
  position (board (run null_engine s [click_start; click_end; click_start]))
  = MiniChess.DEFAULT_POSITION.
Proof.
  intros s.
  destruct (start_end_start null_engine s MiniChess.DEFAULT_POSITION
              MiniChess.default_position) as (H1 & H2 & _).
  - vm_compute; reflexivity.
  - vm_compute; reflexivity.
  - rewrite H1. exact H2.
Defined.

(** The material replay on SAN tokens: nothing is played. *)
Example short_tokens_are_not_played :
  playMovesAndCalculateMaterial null_engine MiniChess.DEFAULT_POSITION "e4 Nf3 d5"
  = mkMaterial 39 39.
Proof. vm_compute; reflexivity. Qed.

(** A capture shows in the tally: 1. e4 d5 2. exd5. *)
Example capture_changes_material :
  playMovesAndCalculateMaterial null_engine MiniChess.DEFAULT_POSITION "e2e4 d7d5 e4d5"
  = mkMaterial 39 38.
Proof. vm_compute; reflexivity. Qed.

(** With a throwing rules object the replay stops at the first illegal
    token: the capture after it is not played. *)
Example material_replay_stops_at_throw :
  playMovesAndCalculateMaterial throwing_engine MiniChess.DEFAULT_POSITION
    "e2e4 d7d5 e2e5 e4d5"
  = mkMaterial 39 39
  /\ playMovesAndCalculateMaterial null_engine MiniChess.DEFAULT_POSITION
       "e2e4 d7d5 e2e5 e4d5"
     = mkMaterial 39 38.
Proof. split; vm_compute; reflexivity. Qed.

Example material_of_unreadable_position :
  playMovesAndCalculateMaterial null_engine "not a position" "e2e4" = mkMaterial 0 0.
Proof. vm_compute; reflexivity. Qed.

End PuzzleProps.

(** * Properties of the random-move player *)

Module GameProps.

Import RandomGame.



Section Generic.

Context (E : Chess.Engine).

(** No pending timer: nothing runs any more. *)
Lemma run_without_timers (draws : list Q) (s : Globals E) :
  timers s = [] -> run E s draws = s.
Proof.
  intros Ht. unfold run. induction draws as [|r draws IH]; simpl; [reflexivity|].
  unfold fire at 2. now rewrite Ht.
Qed.


End Generic.


(** Four invocations from the script's start, with four draws. *)
Example four_random_moves :
  let E := PuzzleSpec.throwing_engine in
  let s := run E (initial_globals E) [1 # 2; 1 # 3; 0; 99 # 100]%Q in
  board s = "rnbqkbnr/p1pppppp/8/1p6/5P2/8/PPPPP1PP/RNBQKBNR w KQkq - 0 3"
  /\ timers s = [(makeRandomMove_callback, 500)].
Proof. split; vm_compute; reflexivity. Qed.

(** Fool's mate on the board: the game is over, the invocation does
    nothing and the timer chain ends. *)
Example halts_after_mate (mated : Chess.Game PuzzleSpec.throwing_engine) :
  let E := PuzzleSpec.throwing_engine in
  let s := mkGlobals E "start" mated [(makeRandomMove_callback, 500)] in
  Chess.create E "rnb1kbnr/pppp1ppp/8/4p3/6Pq/5P2/PPPPP2P/RNBQKBNR w KQkq - 1 3"
  = Some mated ->
  Chess.isGameOver E mated = true
  /\ fire E s (1 # 2) = mkGlobals E "start" mated []
  /\ run E s [1 # 2; 1 # 3; 2 # 3] = mkGlobals E "start" mated [].
Proof.
  intros E s Hc.
  assert (Hover : Chess.isGameOver E mated = true)
    by (vm_compute in Hc; injection Hc as <-; vm_compute; reflexivity).
  assert (Hfire : fire E s (1 # 2) = mkGlobals E "start" mated []).
  { subst s. unfold fire. cbn [timers]. unfold makeRandomMove, bind, gets.
    cbn [game]. rewrite Hover. reflexivity. }
  split; [exact Hover|]. split; [exact Hfire|].
  change (run E s [1 # 2; 1 # 3; 2 # 3])
    with (run E (fire E s (1 # 2)) [1 # 3; 2 # 3]).
  rewrite Hfire. now apply run_without_timers.
Qed.

End GameProps.

(** * The reference rules engine against published move counts *)

Module MiniChessProps.

Import MiniChess.

Example perft_initial :
  perft 1 default_position = 20 /\ perft 2 default_position = 400.
Proof. split; vm_compute; reflexivity. Qed.

(** A middlegame position with castling, en passant and promotion
    threats ("Kiwipete"). *)
Example perft_middlegame :
  option_map (perft 1)
    (load "r3k2r/p1ppqpb1/bn2pnp1/3PN3/1p2P3/2N2Q1p/PPPBBPPP/R3K2R w KQkq - 0 1")
  = Some 48.
Proof. vm_compute; reflexivity. Qed.

Example fen_round_trip :
  option_map print
    (load "r3k2r/p1ppqpb1/bn2pnp1/3PN3/1p2P3/2N2Q1p/PPPBBPPP/R3K2R w KQkq - 12 34")
  = Some "r3k2r/p1ppqpb1/bn2pnp1/3PN3/1p2P3/2N2Q1p/PPPBBPPP/R3K2R w KQkq - 12 34".
Proof. vm_compute; reflexivity. Qed.

Example initial_moves :
  moves default_position
  = ["a2a3"; "a2a4"; "b2b3"; "b2b4"; "c2c3"; "c2c4"; "d2d3"; "d2d4";
     "e2e3"; "e2e4"; "f2f3"; "f2f4"; "g2g3"; "g2g4"; "h2h3"; "h2h4";
     "b1c3"; "b1a3"; "g1h3"; "g1f3"].
Proof. vm_compute; reflexivity. Qed.

End MiniChessProps.

(** * More properties of the puzzle viewer *)

Module PuzzleExtra.

Import RandomPuzzle PuzzleSpec PageSpec PuzzleProps.

(** ** The material count on any grid *)

Lemma skipn_nth_error {A : Type} (l : list A) :
  forall k, skipn k l = match nth_error l k with
                        | Some x => x :: skipn (S k) l
                        | None => []
                        end.
Proof.
  induction l as [|a l IH]; intros [|k]; simpl; try reflexivity.
  apply IH.
Qed.

Lemma count_squares_any (row : list (option Piece)) (n : nat) :
  forall (k : nat) (acc : Material),
    fold_left (count_square row) (seq k n) acc
    = mkMaterial (white acc + row_total White (firstn n (skipn k row)))
                 (black acc + row_total Black (firstn n (skipn k row))).
Proof.
  induction n as [|n IH]; intros k acc.
  - destruct acc. unfold row_total. simpl. f_equal; lia.
  - cbn [seq fold_left]. rewrite IH. rewrite (skipn_nth_error row k).
    unfold count_square.
    destruct (nth_error row k) as [cell|] eqn:Hk.
    + destruct acc as [w b]. destruct cell as [[t []]|];
        unfold row_total; simpl; f_equal; lia.
    + assert (Hnil : skipn (S k) row = [])
        by (apply skipn_all2; apply nth_error_None in Hk; lia).
      rewrite Hnil. destruct acc. unfold row_total.
      rewrite firstn_nil. simpl. f_equal; lia.
Qed.

Lemma count_rows_thrown (b : Grid) (l : list nat) :
  fold_left (count_row b) l None = None.
Proof. induction l as [|x l IH]; simpl; auto. Qed.

Lemma count_rows_any (b : Grid) (n : nat) :
  forall (k : nat) (acc : Material),
    (k <= List.length b)%nat ->
    fold_left (count_row b) (seq k n) (Some acc)
    = if (k + n <=? List.length b)%nat
      then Some (mkMaterial
                   (white acc + side_total White (map (firstn 8) (firstn n (skipn k b))))
                   (black acc + side_total Black (map (firstn 8) (firstn n (skipn k b)))))
      else None.
Proof.
  induction n as [|n IH]; intros k acc Hk.
  - destruct (Nat.leb_spec (k + 0) (List.length b)); [|lia].
    destruct acc. unfold side_total. simpl. do 2 f_equal; lia.
  - cbn [seq fold_left]. unfold count_row at 2.
    rewrite (skipn_nth_error b k).
    destruct (nth_error b k) as [row|] eqn:Hrow.
    + assert (Hlt : (k < List.length b)%nat)
        by (apply nth_error_Some; congruence).
      rewrite (count_squares_any row 8 0 acc).
      rewrite IH by lia. simpl skipn.
      replace (k + S n)%nat with (S k + n)%nat by lia.
      destruct (S k + n <=? List.length b)%nat; [|reflexivity].
      unfold side_total. simpl. do 2 f_equal; lia.
    + apply nth_error_None in Hrow. rewrite count_rows_thrown.
      destruct (Nat.leb_spec (k + S n) (List.length b)); [lia|reflexivity].
Qed.

Lemma row_total_nonneg (c : Color) (row : list (option Piece)) : 0 <= row_total c row.
Proof.
  unfold row_total. induction row as [|cell row IH]; simpl; [lia|].
  assert (0 <= square_value c cell); [|lia].
  destruct cell as [[t k]|]; simpl; [|lia].
  destruct (Color_eqb k c); [destruct t; simpl; lia|lia].
Qed.

Lemma side_total_nonneg (c : Color) (b : Grid) : 0 <= side_total c b.
Proof.
  unfold side_total. induction b as [|row b IH]; simpl; [lia|].
  pose proof (row_total_nonneg c row). lia.
Qed.

Lemma firstn_exact {A : Type} (l : list A) (n : nat) :
  List.length l = n -> firstn n l = l.
Proof. intros <-. apply firstn_all. Qed.

Section Generic.

Context (E : Chess.Engine).

(** X1.  [calculateMaterial] never returns a negative tally.  It returns
    the zero tally when the rules object cannot be built or when its grid
    has fewer than eight rows; otherwise it adds up, for each side, the
    values of the pieces on the first eight squares of the first eight
    rows, a missing square counting as empty.  On an 8x8 grid that is the
    sum of the values of all the pieces of the side. *)
Theorem material_of_any_grid (fen : string) :
  0 <= white (calculateMaterial E fen)
  /\ 0 <= black (calculateMaterial E fen)
  /\ match Chess.create E fen with
     | None => calculateMaterial E fen = mkMaterial 0 0
     | Some g =>
         let b := Chess.board E g in
         calculateMaterial E fen
         = (if (8 <=? List.length b)%nat
            then mkMaterial (side_total White (map (firstn 8) (firstn 8 b)))
                            (side_total Black (map (firstn 8) (firstn 8 b)))
            else mkMaterial 0 0)
         /\ (eight_by_eight b ->
             calculateMaterial E fen
             = mkMaterial (side_total White b) (side_total Black b))
     end.
Proof.
  assert (Hany : forall g, Chess.create E fen = Some g ->
            calculateMaterial E fen
            = (if (8 <=? List.length (Chess.board E g))%nat
               then mkMaterial
                      (side_total White (map (firstn 8) (firstn 8 (Chess.board E g))))
                      (side_total Black (map (firstn 8) (firstn 8 (Chess.board E g))))
               else mkMaterial 0 0)).
  { intros g Hc. unfold calculateMaterial, try_return, count_grid. rewrite Hc.
    rewrite (count_rows_any (Chess.board E g) 8 0 no_material) by lia.
    simpl skipn. simpl Nat.add.
    destruct (8 <=? List.length (Chess.board E g))%nat; reflexivity. }
  destruct (Chess.create E fen) as [g|] eqn:Hc.
  - rewrite (Hany g eq_refl).
    repeat split.
    + destruct (8 <=? _)%nat; simpl; [apply side_total_nonneg|lia].
    + destruct (8 <=? _)%nat; simpl; [apply side_total_nonneg|lia].
    + intros [Hlen Hrows]. rewrite Hlen. simpl Nat.leb. cbv iota.
      rewrite (firstn_exact _ 8 Hlen).
      replace (map (firstn 8) (Chess.board E g)) with (Chess.board E g); [reflexivity|].
      clear Hlen Hany Hc.
      induction Hrows as [|row rows Hrow _ IH]; cbn [map]; [reflexivity|].
      now rewrite (firstn_exact _ 8 Hrow), <- IH.
  - unfold calculateMaterial, try_return. rewrite Hc. simpl. repeat split; lia.
Qed.

Lemma bind_gets {A B : Type} (f : Globals E -> A) (k : A -> M (Globals E) B)
      (s : Globals E) :
  bind (gets f) k s = k (f s) s.
Proof. reflexivity. Qed.

Lemma bind_run {A B : Type} (m : M (Globals E) A) (k : A -> M (Globals E) B)
      (s : Globals E) :
  bind m k s = match m s with
               | Normal a s' => k a s'
               | Thrown s' => Thrown s'
               end.
Proof. reflexivity. Qed.

Lemma bind_modify {B : Type} (f : Globals E -> Globals E)
      (k : unit -> M (Globals E) B) (s : Globals E) :
  bind (modify f) k s = k tt (f s).
Proof. reflexivity. Qed.

(** ** What the tail of a handler leaves alone *)

Lemma cursor_ret {A : Type} (a : A) : keeps_cursor E (ret a).
Proof. intros s. split; reflexivity. Qed.

Lemma cursor_throw {A : Type} : keeps_cursor E (@throw _ A).
Proof. intros s. split; reflexivity. Qed.

Lemma cursor_gets {A : Type} (f : Globals E -> A) : keeps_cursor E (gets f).
Proof. intros s. split; reflexivity. Qed.

Lemma cursor_bind {A B : Type} (m : M (Globals E) A) (k : A -> M (Globals E) B) :
  keeps_cursor E m -> (forall a, keeps_cursor E (k a)) -> keeps_cursor E (bind m k).
Proof.
  intros Hm Hk s. unfold bind. specialize (Hm s).
  destruct (m s) as [a s'|s']; simpl in *; [|assumption].
  destruct (Hk a s') as [H1 H2]. destruct Hm as [H3 H4].
  split; congruence.
Qed.

Lemma cursor_try_catch {A : Type} (body handler : M (Globals E) A) :
  keeps_cursor E body -> keeps_cursor E handler -> keeps_cursor E (try_catch body handler).
Proof.
  intros Hb Hh s. unfold try_catch. specialize (Hb s).
  destruct (body s) as [a s'|s']; simpl in *; [assumption|].
  destruct (Hh s') as [H1 H2]. destruct Hb as [H3 H4].
  split; congruence.
Qed.

Lemma cursor_set_game (g : option (Chess.Game E)) :
  keeps_cursor E (modify (set_game E g)).
Proof. intros s. split; reflexivity. Qed.

Lemma cursor_new_Chess (f : option string) : keeps_cursor E (new_Chess E f).
Proof.
  intros s. unfold new_Chess. destruct f as [f|]; [|split; reflexivity].
  destruct (Chess.create E f); split; reflexivity.
Qed.

Lemma cursor_game_move (arg : Chess.MoveArg) : keeps_cursor E (game_move E arg).
Proof.
  intros s. unfold game_move. destruct (game s) as [g|]; [|split; reflexivity].
  destruct (Chess.move E g arg); split; reflexivity.
Qed.

Lemma cursor_game_fen : keeps_cursor E (game_fen E).
Proof. intros s. unfold game_fen. destruct (game s); split; reflexivity. Qed.

Lemma cursor_board_position (p : string) : keeps_cursor E (board_position E p).
Proof. intros s. split; reflexivity. Qed.

Lemma cursor_updateMoveDisplay : keeps_cursor E (updateMoveDisplay E).
Proof. intros s. split; reflexivity. Qed.

Create HintDb cursor.
#[local] Hint Resolve cursor_ret cursor_throw cursor_gets cursor_set_game
  cursor_new_Chess cursor_game_move cursor_game_fen cursor_board_position
  cursor_updateMoveDisplay : cursor.

Ltac cursor_step :=
  first [ apply cursor_bind; [|intros ?]
        | apply cursor_try_catch
        | match goal with
          | |- keeps_cursor _ (if ?b then _ else _) => destruct b
          end
        | solve [auto with cursor] ].

Lemma cursor_replay_loop (count : nat) : forall i, keeps_cursor E (replay_loop E i count).
Proof.
  induction count as [|count IH]; intros i; simpl; repeat cursor_step.
Qed.
#[local] Hint Resolve cursor_replay_loop : cursor.

(** A handler that first assigns the cursor and then only runs code that
    leaves the cursor alone ends with that cursor, whether it throws or
    not. *)
Lemma cursor_after_assignment {A : Type} (c : Z) (k : M (Globals E) A) (s : Globals E) :
  keeps_cursor E k ->
  currentMoveIndex (final (bind (modify (set_currentMoveIndex E c)) (fun _ => k) s)) = c
  /\ puzzleMoves (final (bind (modify (set_currentMoveIndex E c)) (fun _ => k) s))
     = puzzleMoves s.
Proof.
  intros Hk. unfold bind, modify.
  destruct (Hk (set_currentMoveIndex E c s)) as [H1 H2]. now rewrite H1, H2.
Qed.

Lemma goToStart_cursor (s : Globals E) :
  currentMoveIndex (final (goToStart E s)) = -1
  /\ puzzleMoves (final (goToStart E s)) = puzzleMoves s.
Proof.
  unfold goToStart. apply cursor_after_assignment. repeat cursor_step.
Qed.

Lemma goToEnd_cursor (s : Globals E) :
  currentMoveIndex (final (goToEnd E s)) = len (puzzleMoves s) - 1
  /\ puzzleMoves (final (goToEnd E s)) = puzzleMoves s.
Proof.
  unfold goToEnd. rewrite !bind_gets.
  apply cursor_after_assignment. unfold replay. repeat cursor_step.
Qed.

Lemma previousMove_cursor (s : Globals E) :
  currentMoveIndex (final (previousMove E s))
  = (if -1 <? currentMoveIndex s then currentMoveIndex s - 1 else currentMoveIndex s)
  /\ puzzleMoves (final (previousMove E s)) = puzzleMoves s.
Proof.
  unfold previousMove. rewrite !bind_gets.
  destruct (Z.ltb_spec (-1) (currentMoveIndex s)) as [H|H]; [|split; reflexivity].
  rewrite !bind_modify, !bind_gets. cbn [currentMoveIndex set_currentMoveIndex].
  destruct (Z.eqb_spec (currentMoveIndex s - 1) (-1)) as [Hz|Hz].
  - destruct (goToStart_cursor (set_currentMoveIndex E (currentMoveIndex s - 1) s))
      as [H1 H2].
    rewrite H1, H2. split; [lia|reflexivity].
  - assert (Htail : keeps_cursor E
                      (f <- gets originalFen ;;
                       g <- new_Chess E f ;;
                       modify (set_game E (Some g)) ;;
                       replay E ;;
                       p <- game_fen E ;;
                       board_position E p ;;
                       updateMoveDisplay E)%js)
      by (unfold replay; repeat cursor_step).
    destruct (Htail (set_currentMoveIndex E (currentMoveIndex s - 1) s)) as [H1 H2].
    rewrite H1, H2. split; reflexivity.
Qed.

Lemma nextMove_cursor (s : Globals E) :
  currentMoveIndex (final (nextMove E s))
  = (if currentMoveIndex s <? len (puzzleMoves s) - 1
     then currentMoveIndex s + 1 else currentMoveIndex s)
  /\ puzzleMoves (final (nextMove E s)) = puzzleMoves s.
Proof.
  unfold nextMove. rewrite !bind_gets.
  destruct (currentMoveIndex s <? len (puzzleMoves s) - 1); [|split; reflexivity].
  apply cursor_after_assignment. repeat cursor_step.
Qed.

Lemma onDrop_cursor (source target : string) : keeps_cursor E (onDrop E source target).
Proof. unfold onDrop. repeat cursor_step. Qed.

(** The setup callback ends with the cursor on 0 or on -1. *)
Lemma playFirstMove_cursor (s : Globals E) :
  (currentMoveIndex (final (playFirstMove_callback E s)) = 0
   \/ currentMoveIndex (final (playFirstMove_callback E s)) = -1)
  /\ puzzleMoves (final (playFirstMove_callback E s)) = puzzleMoves s.
Proof.
  unfold playFirstMove_callback, try_catch. rewrite !bind_gets.
  destruct (cursor_game_move (sloppy (puzzleMoves s) 0) s) as [Hc Hm].
  rewrite !(bind_run (game_move E (sloppy (puzzleMoves s) 0))).
  destruct (game_move E (sloppy (puzzleMoves s) 0) s) as [b s1|s1]; simpl in Hc, Hm.
  - rewrite !(bind_run (game_fen E)). unfold game_fen.
    destruct (game s1); simpl; auto.
  - simpl. auto.
Qed.

(** ** The cursor through every event *)

Lemma handle_cursor (s : Globals E) (e : Event) :
  puzzleMoves s <> [] ->
  cursor_in_range E s ->
  cursor_in_range E (handle E s e) /\ puzzleMoves (handle E s e) = puzzleMoves s.
Proof.
  unfold cursor_in_range. intros Hne Hc.
  pose proof (len_positive (puzzleMoves s) Hne) as Hlen.
  destruct e; simpl.
  - destruct (goToStart_cursor s) as [H1 H2]. rewrite H1, H2. split; [lia|reflexivity].
  - destruct (previousMove_cursor s) as [H1 H2]. rewrite H1, H2.
    split; [|reflexivity].
    destruct (Z.ltb_spec (-1) (currentMoveIndex s)); lia.
  - destruct (nextMove_cursor s) as [H1 H2]. rewrite H1, H2.
    split; [|reflexivity].
    destruct (Z.ltb_spec (currentMoveIndex s) (len (puzzleMoves s) - 1)); lia.
  - destruct (goToEnd_cursor s) as [H1 H2]. rewrite H1, H2. split; [lia|reflexivity].
  - destruct (onDrop_cursor source target s) as [H1 H2]. rewrite H1, H2.
    split; [lia|reflexivity].
  - destruct (timers s) as [|[[] d] rest]; [split; [lia|reflexivity]|].
    simpl. destruct (playFirstMove_cursor (set_timers E rest s)) as [[H1|H1] H2];
      rewrite H1, H2; simpl; split; try reflexivity; lia.
Qed.

Lemma run_cursor (events : list Event) :
  forall s, puzzleMoves s <> [] ->
            cursor_in_range E s ->
            cursor_in_range E (run E s events)
            /\ puzzleMoves (run E s events) = puzzleMoves s.
Proof.
  unfold run. induction events as [|e events IH]; intros s Hne Hc; simpl; [auto|].
  destruct (handle_cursor s e Hne Hc) as [H1 H2].
  destruct (IH (handle E s e)) as [H3 H4]; [now rewrite H2|assumption|].
  split; [assumption|congruence].
Qed.

(** X2.  After a puzzle is loaded the cursor is one of -1, 0, ..., N-1
    after every sequence of events (clicks, drops, the timer), whatever the
    rules object answers, also along the handlers that throw; the move
    list itself is never written again. *)
Theorem cursor_stays_in_range (data : list Puzzle) (r : Q) (puzzle : Puzzle)
        (g0 : Chess.Game E) (s : Globals E) (events : list Event) :
  index data (random_index r (len data)) = Some puzzle ->
  Chess.create E (FEN puzzle) = Some g0 ->
  let s' := run E (final (fetchRandomPuzzle E (Some data) r s)) events in
  -1 <= currentMoveIndex s' <= len (puzzleMoves s') - 1
  /\ puzzleMoves s' = split space (Moves puzzle).
Proof.
  intros Hi Hc s'.
  destruct (fetch_loads E data r puzzle g0 s Hi Hc) as (_ & Hm & Hcur & _).
  destruct (run_cursor events (final (fetchRandomPuzzle E (Some data) r s)))
    as [H1 H2].
  - rewrite Hm. apply split_nonempty.
  - unfold cursor_in_range. rewrite Hcur, Hm.
    pose proof (len_positive _ (split_nonempty space (Moves puzzle))). lia.
  - fold s' in H1, H2. split; [exact H1|]. now rewrite H2.
Qed.

(** X3.  The two stepping functions move the cursor by exactly one step
    inside the range and not at all at its ends, also when the move they
    apply throws. *)
Theorem stepping_moves_cursor_by_one (s : Globals E) :
  currentMoveIndex (handle E s click_next)
  = (if currentMoveIndex s <? len (puzzleMoves s) - 1
     then currentMoveIndex s + 1 else currentMoveIndex s)
  /\ currentMoveIndex (handle E s click_prev)
     = (if -1 <? currentMoveIndex s then currentMoveIndex s - 1 else currentMoveIndex s)
  /\ currentMoveIndex (handle E s click_start) = -1
  /\ currentMoveIndex (handle E s click_end) = len (puzzleMoves s) - 1.
Proof.
  simpl.
  destruct (nextMove_cursor s) as [H1 _]. destruct (previousMove_cursor s) as [H2 _].
  destruct (goToStart_cursor s) as [H3 _]. destruct (goToEnd_cursor s) as [H4 _].
  auto.
Qed.

(** ** Drops *)

(** X4.  [onDrop] never throws and always answers ['snapback']; it writes
    neither the widget nor the cursor, the move list, the starting position
    or the timers.  A drop that is not a legal move (or that comes before
    any puzzle is loaded) leaves every global as it was; a legal one
    replaces the rules object by the one after the move. *)
Theorem onDrop_snaps_back (s : Globals E) (source target : string) :
  exists s',
    onDrop E source target s = Normal snapback s'
    /\ board s' = board s
    /\ currentMoveIndex s' = currentMoveIndex s
    /\ puzzleMoves s' = puzzleMoves s
    /\ originalFen s' = originalFen s
    /\ timers s' = timers s
    /\ match game s with
       | None => s' = s
       | Some g =>
           match Chess.move E g (Chess.Obj source target "q") with
           | Chess.Moved g' => game s' = Some g'
           | Chess.Null | Chess.Throws => s' = s
           end
       end.
Proof.
  unfold onDrop, try_catch. rewrite bind_run. unfold game_move.
  destruct (game s) as [g|] eqn:Hg.
  - destruct (Chess.move E g (Chess.Obj source target "q")) as [g'| |].
    + eexists. split; [reflexivity|]. simpl. repeat split; reflexivity.
    + exists s. repeat split; reflexivity.
    + exists s. repeat split; reflexivity.
  - exists s. repeat split; reflexivity.
Qed.

(** ** What no event writes *)

Lemma frame_puzzle_of (s1 s2 : Globals E) :
  frame E s1 = frame E s2 -> puzzle_of E s1 = puzzle_of E s2.
Proof. unfold frame, puzzle_of. intros H. now inversion H. Qed.

Lemma handle_puzzle_of (s : Globals E) (e : Event) :
  puzzle_of E (handle E s e) = puzzle_of E s.
Proof.
  destruct e; simpl.
  - apply frame_puzzle_of, keeps_goToStart.
  - apply frame_puzzle_of, keeps_previousMove.
  - apply frame_puzzle_of, keeps_nextMove.
  - apply frame_puzzle_of, keeps_goToEnd.
  - apply frame_puzzle_of, keeps_onDrop.
  - destruct (timers s) as [|[[] d] rest]; [reflexivity|].
    simpl. now rewrite (frame_puzzle_of _ _ (keeps_playFirstMove E _)).
Qed.

Lemma run_puzzle_of (events : list Event) :
  forall s, puzzle_of E (run E s events) = puzzle_of E s.
Proof.
  unfold run. induction events as [|e events IH]; intros s; simpl; [reflexivity|].
  now rewrite IH, handle_puzzle_of.
Qed.

(** X5.  [goToStart] repairs the viewer: whatever events came before
    (drops that changed the rules object, a replay that threw, the timer
    firing late), after [goToStart] the cursor is -1, the rules object is
    the one of the starting position and the widget shows the starting
    position; if the replay of the move list completes without a throw,
    every navigation sequence that follows shows the replay again. *)
Theorem goToStart_repairs (data : list Puzzle) (r : Q) (puzzle : Puzzle)
        (g0 : Chess.Game E) (s : Globals E) (before : list Event) :
  index data (random_index r (len data)) = Some puzzle ->
  Chess.create E (FEN puzzle) = Some g0 ->
  let s0 := final (fetchRandomPuzzle E (Some data) r s) in
  let s1 := run E s0 (before ++ [click_start]) in
  currentMoveIndex s1 = -1
  /\ game s1 = Some g0
  /\ position (board s1) = FEN puzzle
  /\ forall gN after,
      replay_moves E g0 (split space (Moves puzzle)) = Some gN ->
      Forall navigation after ->
      shows_replay E (run E s1 after).
Proof.
  intros Hi Hc s0 s1.
  destruct (fetch_loads E data r puzzle g0 s Hi Hc) as (Hf & Hm & _).
  fold s0 in Hf, Hm.
  pose proof (run_puzzle_of before s0) as Hp. unfold puzzle_of in Hp.
  injection Hp as Hf' Hm' _. rewrite Hf in Hf'. rewrite Hm in Hm'.
  assert (Hs1 : s1 = shown_at E (run E s0 before) (-1) g0 (FEN puzzle)).
  { unfold s1. rewrite run_snoc. simpl.
    now rewrite (goToStart_shows E _ (FEN puzzle) g0). }
  split; [now rewrite Hs1|]. split; [now rewrite Hs1|]. split; [now rewrite Hs1|].
  intros gN after Hr Hnav.
  apply (in_step_shows_replay E (FEN puzzle) g0 (split space (Moves puzzle)));
    [assumption|].
  apply (in_step_run E (FEN puzzle) g0 gN); try assumption; try apply split_nonempty.
  rewrite Hs1.
  apply (in_step_shown_at E (FEN puzzle) g0 (split space (Moves puzzle)) _ (-1) g0);
    try assumption; try reflexivity.
  pose proof (len_positive _ (split_nonempty space (Moves puzzle))). lia.
Qed.

(** X6.  [goToEnd] repairs the viewer as well, when the replay of the
    move list completes without a throw: whatever events came before,
    after [goToEnd] the cursor is N-1, the rules object is the one after
    all the moves, and the widget shows its position. *)
Theorem goToEnd_repairs (data : list Puzzle) (r : Q) (puzzle : Puzzle)
        (g0 gN : Chess.Game E) (s : Globals E) (before : list Event) :
  index data (random_index r (len data)) = Some puzzle ->
  Chess.create E (FEN puzzle) = Some g0 ->
  replay_moves E g0 (split space (Moves puzzle)) = Some gN ->
  let s0 := final (fetchRandomPuzzle E (Some data) r s) in
  let s1 := run E s0 (before ++ [click_end]) in
  currentMoveIndex s1 = len (split space (Moves puzzle)) - 1
  /\ game s1 = Some gN
  /\ position (board s1) = Chess.fen E gN
  /\ shows_replay E s1.
Proof.
  intros Hi Hc Hr s0 s1.
  destruct (fetch_loads E data r puzzle g0 s Hi Hc) as (Hf & Hm & _).
  fold s0 in Hf, Hm.
  pose proof (run_puzzle_of before s0) as Hp. unfold puzzle_of in Hp.
  injection Hp as Hf' Hm' _. rewrite Hf in Hf'. rewrite Hm in Hm'.
  pose proof (len_positive _ (split_nonempty space (Moves puzzle))) as Hlen.
  assert (Hs1 : s1 = shown_at E (run E s0 before)
                       (len (split space (Moves puzzle)) - 1) gN (Chess.fen E gN)).
  { unfold s1. rewrite run_snoc. simpl.
    rewrite (goToEnd_shows E _ (FEN puzzle) g0 gN); try assumption;
      now rewrite Hm'. }
  split; [now rewrite Hs1|]. split; [now rewrite Hs1|]. split; [now rewrite Hs1|].
  apply (in_step_shows_replay E (FEN puzzle) g0 (split space (Moves puzzle)));
    [assumption|].
  rewrite Hs1.
  replace (Chess.fen E gN)
    with (if len (split space (Moves puzzle)) - 1 =? -1
          then FEN puzzle else Chess.fen E gN)
    by (destruct (Z.eqb_spec (len (split space (Moves puzzle)) - 1) (-1));
        [lia|reflexivity]).
  apply in_step_shown_at; try assumption; try lia.
  replace (Z.to_nat (len (split space (Moves puzzle)) - 1 + 1))
    with (List.length (split space (Moves puzzle))) by (unfold len; lia).
  now rewrite firstn_all.
Qed.

(** ** The page follows the cursor *)

Lemma sync_shown_at (s : Globals E) c g p : page_in_sync E (shown_at E s c g p).
Proof. unfold page_in_sync. simpl. repeat split; reflexivity. Qed.

Lemma sync_set_timers (s : Globals E) t :
  page_in_sync E s -> page_in_sync E (set_timers E t s).
Proof. exact (fun H => H). Qed.

Lemma fetch_in_sync (data : list Puzzle) (r : Q) (puzzle : Puzzle)
      (g0 : Chess.Game E) (s : Globals E) :
  index data (random_index r (len data)) = Some puzzle ->
  Chess.create E (FEN puzzle) = Some g0 ->
  page_in_sync E (final (fetchRandomPuzzle E (Some data) r s)).
Proof.
  intros Hi Hc. unfold fetchRandomPuzzle. rewrite Hi.
  unfold new_Chess. rewrite Hc.
  unfold createNavigationControls, updateMoveDisplay, updateButtonStates,
    materialAnalysis, displayMaterialAnalysis, board_orientation, board_position,
    setTimeout.
  generalize (playMovesAndCalculateMaterial E (FEN puzzle) (Moves puzzle)).
  generalize (playMovesAndCalculateMaterial E (FEN puzzle)
                match split space (Moves puzzle) with m :: _ => m | [] => "" end).
  intros m1 m2. unfold page_in_sync.
  destruct (split space (Moves puzzle)) as [|m rest] eqn:Hs.
  - run_js; destruct (Chess.turn E g0); simpl; repeat split; reflexivity.
  - run_js; destruct (Chess.turn E g0); simpl;
      destruct (truthy m); simpl; repeat split; reflexivity.
Qed.

Section Navigation.

Variables (f : string) (g0 gN : Chess.Game E) (moves : list string).
Hypothesis created : Chess.create E f = Some g0.
Hypothesis completes : replay_moves E g0 moves = Some gN.
Hypothesis some_moves : moves <> [].

(** A navigation function either returns at once or leaves the globals of
    a cursor of the range. *)
Lemma navigation_outcome (s : Globals E) (e : Event) :
  navigation e ->
  in_step E f g0 moves s ->
  handle E s e = s
  \/ exists c g,
      handle E s e = shown_at E s c g (if c =? -1 then f else Chess.fen E g)
      /\ -1 <= c <= len moves - 1
      /\ replay_moves E g0 (firstn (Z.to_nat (c + 1)) moves) = Some g.
Proof.
  intros Hnav Hs. pose proof Hs as (Hf & Hm & Hc & g & Hr & Hg & Hp).
  pose proof (len_positive moves some_moves) as Hlen.
  destruct e; simpl in *; try contradiction.
  - right. exists (-1), g0.
    rewrite (goToStart_shows E s f g0) by assumption.
    repeat split; try reflexivity; lia.
  - destruct (Z.eq_dec (currentMoveIndex s) (-1)) as [Hneg|Hneg];
      [left; now rewrite previousMove_idle|right].
    destruct (Z.eq_dec (currentMoveIndex s) 0) as [Hzero|Hzero].
    + exists (-1), g0. rewrite (previousMove_to_start E s f g0) by assumption.
      repeat split; try reflexivity; lia.
    + destruct (replay_moves_prefix E moves (Z.to_nat (currentMoveIndex s)) g0 gN
                  completes) as [g' Hg'].
      exists (currentMoveIndex s - 1), g'.
      rewrite (previousMove_shows E s f g0 g' (currentMoveIndex s));
        try assumption; try reflexivity; try (rewrite Hm; lia);
        [|now rewrite Hm].
      destruct (Z.eqb_spec (currentMoveIndex s - 1) (-1)); [lia|].
      repeat split; try reflexivity; try lia.
      now replace (currentMoveIndex s - 1 + 1) with (currentMoveIndex s) by lia.
  - destruct (Z.eq_dec (currentMoveIndex s) (len moves - 1)) as [Hlast|Hlast];
      [left; rewrite nextMove_idle; [reflexivity|now rewrite Hm]|right].
    destruct (replay_moves_next E g0 gN moves completes
                (currentMoveIndex s) g) as (m & g' & Hi & H1 & Hn);
      [lia|assumption|].
    exists (currentMoveIndex s + 1), g'.
    rewrite (nextMove_shows E s g g' (currentMoveIndex s) m);
      try assumption; try reflexivity; try (rewrite Hm; assumption || lia).
    destruct (Z.eqb_spec (currentMoveIndex s + 1) (-1)); [lia|].
    repeat split; try reflexivity; try lia. assumption.
  - right. exists (len moves - 1), gN.
    rewrite (goToEnd_shows E s f g0 gN); try assumption; [|now rewrite Hm].
    rewrite Hm. destruct (Z.eqb_spec (len moves - 1) (-1)); [lia|].
    repeat split; try reflexivity; try lia.
    replace (Z.to_nat (len moves - 1 + 1)) with (List.length moves)
      by (unfold len; lia).
    now rewrite firstn_all.
Qed.

Lemma sync_handle (s : Globals E) (e : Event) :
  navigation e -> in_step E f g0 moves s ->
  page_in_sync E s -> page_in_sync E (handle E s e).
Proof.
  intros Hnav Hs Hsync.
  destruct (navigation_outcome s e Hnav Hs) as [Hsame|(c & g & Hshown & _)].
  - now rewrite Hsame.
  - rewrite Hshown. apply sync_shown_at.
Qed.

Lemma sync_run (events : list Event) :
  Forall navigation events ->
  forall s, in_step E f g0 moves s -> page_in_sync E s ->
            page_in_sync E (run E s events).
Proof.
  unfold run. induction 1 as [|e events He _ IH]; intros s Hs Hsync; simpl;
    [assumption|].
  apply IH.
  - now apply (in_step_handle E f g0 gN moves created completes some_moves).
  - now apply sync_handle.
Qed.

(** Two states on the same cursor that both hold the replay, with the page
    in step, agree in every global they share the rest of. *)
Lemma same_cursor_same_globals (s1 s2 : Globals E) :
  in_step E f g0 moves s1 -> in_step E f g0 moves s2 ->
  page_in_sync E s1 -> page_in_sync E s2 ->
  frame E s1 = frame E s2 ->
  currentMoveIndex s1 = currentMoveIndex s2 ->
  s1 = s2.
Proof.
  intros (Hf1 & Hm1 & _ & g1 & Hr1 & Hg1 & Hp1) (Hf2 & Hm2 & _ & g2 & Hr2 & Hg2 & Hp2)
         (Ht1 & Ha1 & Hb1 & Hc1 & Hd1) (Ht2 & Ha2 & Hb2 & Hc2 & Hd2) Hframe Hcur.
  unfold frame in Hframe. injection Hframe as _ _ Ho Htm Hmd.
  rewrite <- Hcur in *. rewrite Hr1 in Hr2. injection Hr2 as <-.
  destruct s1 as [[p1 o1] gm1 pm1 c1 of1 [mi1 bs1 bp1 bn1 be1 md1] tm1].
  destruct s2 as [[p2 o2] gm2 pm2 c2 of2 [mi2 bs2 bp2 bn2 be2 md2] tm2].
  simpl in *. subst. reflexivity.
Qed.

End Navigation.

Lemma navigation_frame (s : Globals E) (e : Event) :
  navigation e -> frame E (handle E s e) = frame E s.
Proof.
  destruct e; simpl; intros Hnav; try contradiction.
  - apply keeps_goToStart.
  - apply keeps_previousMove.
  - apply keeps_nextMove.
  - apply keeps_goToEnd.
Qed.

Lemma run_frame (events : list Event) :
  Forall navigation events -> forall s, frame E (run E s events) = frame E s.
Proof.
  unfold run. induction 1 as [|e events He _ IH]; intros s; simpl; [reflexivity|].
  rewrite IH. now apply navigation_frame.
Qed.

(** The setup timer, fired before any click. *)
Lemma timer_in_step_sync (f : string) (g0 gN : Chess.Game E) (moves : list string)
      (s : Globals E) :
  Chess.create E f = Some g0 ->
  replay_moves E g0 moves = Some gN ->
  moves <> [] ->
  in_step E f g0 moves s ->
  currentMoveIndex s = -1 ->
  page_in_sync E s ->
  in_step E f g0 moves (handle E s timeout)
  /\ page_in_sync E (handle E s timeout).
Proof.
  intros Hc Hr Hne Hs Hcur Hsync. simpl.
  destruct (timers s) as [|[[] d] rest]; [auto|]. simpl.
  split.
  - apply (in_step_playFirstMove E f g0 gN moves); try assumption.
  - destruct Hs as (_ & Hm & _ & g & Hrp & Hg & _).
    rewrite Hcur in Hrp. simpl in Hrp. injection Hrp as <-.
    destruct moves as [|m rest']; [congruence|].
    simpl in Hr.
    destruct (Chess.move E g0 (Chess.Str m true)) as [g1| |] eqn:Hmove;
      [| |discriminate].
    + rewrite (playFirstMove_moved E (set_timers E rest s) g0 g1); try assumption.
      * apply sync_shown_at.
      * simpl. now rewrite Hm.
    + rewrite (playFirstMove_null E (set_timers E rest s) g0); try assumption.
      * apply sync_shown_at.
      * simpl. now rewrite Hm.
Qed.

(** The globals from which navigation starts: those of the load, or those
    after the setup timer has fired. *)
Lemma start_in_step_sync (data : list Puzzle) (r : Q) (puzzle : Puzzle)
      (g0 gN : Chess.Game E) (s : Globals E) (fired : bool) :
  index data (random_index r (len data)) = Some puzzle ->
  Chess.create E (FEN puzzle) = Some g0 ->
  replay_moves E g0 (split space (Moves puzzle)) = Some gN ->
  let s0 := run E (final (fetchRandomPuzzle E (Some data) r s))
                (if fired then [timeout] else []) in
  in_step E (FEN puzzle) g0 (split space (Moves puzzle)) s0
  /\ page_in_sync E s0.
Proof.
  intros Hi Hc Hr s0.
  pose proof (fetch_in_step E data r puzzle g0 s Hi Hc) as Hs.
  pose proof (fetch_in_sync data r puzzle g0 s Hi Hc) as Hsync.
  destruct fired; [|split; assumption].
  apply (timer_in_step_sync (FEN puzzle) g0 gN); try assumption.
  - apply split_nonempty.
  - now destruct (fetch_loads E data r puzzle g0 s Hi Hc) as (_ & _ & Hcur & _).
Qed.

(** X7.  As long as no move throws, the page follows the cursor through
    every navigation sequence: the move text and the four buttons are
    those of the cursor, the start and previous buttons are disabled
    exactly on -1 and the next and end buttons exactly on N-1, a disabled
    previous or next button is one whose function would return without any
    effect, and the text for a cursor past the last move never shows. *)
Theorem page_follows_cursor (data : list Puzzle) (r : Q) (puzzle : Puzzle)
        (g0 gN : Chess.Game E) (s : Globals E) (fired : bool) (events : list Event) :
  index data (random_index r (len data)) = Some puzzle ->
  Chess.create E (FEN puzzle) = Some g0 ->
  replay_moves E g0 (split space (Moves puzzle)) = Some gN ->
  Forall navigation events ->
  let s' := run E (final (fetchRandomPuzzle E (Some data) r s))
                ((if fired then [timeout] else []) ++ events) in
  let d := document s' in
  let c := currentMoveIndex s' in
  move_info d = move_text c (puzzleMoves s')
  /\ (btn_start d = true <-> c = -1)
  /\ (btn_prev d = true <-> c = -1)
  /\ (btn_next d = true <-> c = len (puzzleMoves s') - 1)
  /\ (btn_end d = true <-> c = len (puzzleMoves s') - 1)
  /\ (btn_prev d = true -> handle E s' click_prev = s')
  /\ (btn_next d = true -> handle E s' click_next = s')
  /\ move_info d <> "Position: After all moves".
Proof.
  intros Hi Hc Hr Hnav s' d c.
  destruct (start_in_step_sync data r puzzle g0 gN s fired Hi Hc Hr) as [Hs Hsync].
  assert (Hs' : in_step E (FEN puzzle) g0 (split space (Moves puzzle)) s').
  { unfold s', run. rewrite fold_left_app.
    apply (in_step_run E (FEN puzzle) g0 gN); try assumption; apply split_nonempty. }
  assert (Hsync' : page_in_sync E s').
  { unfold s', run. rewrite fold_left_app.
    apply (sync_run (FEN puzzle) g0 gN (split space (Moves puzzle)));
      try assumption; apply split_nonempty. }
  destruct Hsync' as (Ht & Ha & Hb & Hn & He).
  destruct Hs' as (_ & Hm & Hrange & _). rewrite <- Hm in Hrange.
  fold d c in Ht, Ha, Hb, Hn, He. fold c in Hrange.
  split; [exact Ht|].
  assert (Hlive : move_info d <> "Position: After all moves").
  { rewrite Ht. unfold move_text.
    destruct (c =? -1); [discriminate|].
    destruct (Z.leb_spec (len (puzzleMoves s')) c); [lia|]. simpl. discriminate. }
  rewrite Ha, Hb, Hn, He.
  rewrite Z.eqb_eq, !Z.leb_le.
  repeat split; try lia; try exact Hlive.
  - intros H. simpl. rewrite previousMove_idle; [reflexivity|fold c; lia].
  - intros H. simpl. rewrite nextMove_idle; [reflexivity|fold c; lia].
Qed.

(** X8.  As long as no move throws, navigation is path independent: two
    navigation sequences that end on the same cursor leave the same
    globals (rules object, widget, page). *)
Theorem navigation_is_path_independent (data : list Puzzle) (r : Q) (puzzle : Puzzle)
        (g0 gN : Chess.Game E) (s : Globals E) (fired : bool)
        (events1 events2 : list Event) :
  index data (random_index r (len data)) = Some puzzle ->
  Chess.create E (FEN puzzle) = Some g0 ->
  replay_moves E g0 (split space (Moves puzzle)) = Some gN ->
  Forall navigation events1 ->
  Forall navigation events2 ->
  let s0 := run E (final (fetchRandomPuzzle E (Some data) r s))
                (if fired then [timeout] else []) in
  currentMoveIndex (run E s0 events1) = currentMoveIndex (run E s0 events2) ->
  run E s0 events1 = run E s0 events2.
Proof.
  intros Hi Hc Hr Hnav1 Hnav2 s0 Hcur.
  destruct (start_in_step_sync data r puzzle g0 gN s fired Hi Hc Hr) as [Hs Hsync].
  fold s0 in Hs, Hsync.
  apply (same_cursor_same_globals (FEN puzzle) g0 (split space (Moves puzzle)));
    try assumption.
  - apply (in_step_run E (FEN puzzle) g0 gN); try assumption; apply split_nonempty.
  - apply (in_step_run E (FEN puzzle) g0 gN); try assumption; apply split_nonempty.
  - apply (sync_run (FEN puzzle) g0 gN (split space (Moves puzzle)));
      try assumption; apply split_nonempty.
  - apply (sync_run (FEN puzzle) g0 gN (split space (Moves puzzle)));
      try assumption; apply split_nonempty.
  - now rewrite !run_frame.
Qed.

(** ** Loading *)

(** X9.  [fetchRandomPuzzle] never throws.  When the load fails (fetch or
    parse failure, empty collection, a starting position the rules object
    rejects) the widget falls back to ['start'] and no timer is set; the
    rules object, the move list, the page and the orientation stay as they
    were. *)
Theorem failed_load_falls_back (fetched : option (list Puzzle)) (r : Q)
        (s : Globals E) :
  threw (fetchRandomPuzzle E fetched r s) = false
  /\ (load_fails E fetched r ->
      let s' := final (fetchRandomPuzzle E fetched r s) in
      board s' = mkChessboard "start" (orientation (board s))
      /\ game s' = game s
      /\ puzzleMoves s' = puzzleMoves s
      /\ document s' = document s
      /\ timers s' = timers s).
Proof.
  split.
  - unfold fetchRandomPuzzle, try_catch, board_position, modify.
    match goal with |- threw (match ?b with _ => _ end) = _ => destruct b end;
      reflexivity.
  - unfold load_fails, fetchRandomPuzzle. intros Hfail.
    destruct fetched as [data|]; [|repeat split; reflexivity].
    destruct (index data (random_index r (len data))) as [puzzle|];
      [|repeat split; reflexivity].
    unfold new_Chess. rewrite Hfail. repeat split; reflexivity.
Qed.


(** ** The setup move *)

(** X11.  The setup callback never throws.  When the move is applied, the
    cursor goes to 0 and the widget shows the new position; when the move
    throws, or no rules object exists, the cursor is put on -1 and nothing
    else changes. *)
Theorem setup_move_outcomes (s : Globals E) :
  threw (playFirstMove_callback E s) = false
  /\ (forall g g',
        game s = Some g ->
        Chess.move E g (sloppy (puzzleMoves s) 0) = Chess.Moved g' ->
        playFirstMove_callback E s = Normal tt (shown_at E s 0 g' (Chess.fen E g')))
  /\ (forall g,
        game s = Some g ->
        Chess.move E g (sloppy (puzzleMoves s) 0) = Chess.Throws ->
        playFirstMove_callback E s = Normal tt (set_currentMoveIndex E (-1) s))
  /\ (game s = None ->
      playFirstMove_callback E s = Normal tt (set_currentMoveIndex E (-1) s)).
Proof.
  split; [|split; [|split]].
  - unfold playFirstMove_callback, try_catch, modify.
    match goal with |- threw (match ?b with _ => _ end) = _ => destruct b end;
      reflexivity.
  - intros g g' Hg Hm. now apply (playFirstMove_moved E s g).
  - intros g Hg Hm. now apply (playFirstMove_throws E s g).
  - intros Hg. unfold playFirstMove_callback, try_catch. rewrite bind_gets, bind_run.
    unfold game_move. now rewrite Hg.
Qed.

(** ** The material panel *)

Lemma fetch_panel (data : list Puzzle) (r : Q) (puzzle : Puzzle)
      (g0 : Chess.Game E) (s : Globals E) :
  index data (random_index r (len data)) = Some puzzle ->
  Chess.create E (FEN puzzle) = Some g0 ->
  let first := playMovesAndCalculateMaterial E (FEN puzzle) (first_token (Moves puzzle)) in
  let last := playMovesAndCalculateMaterial E (FEN puzzle) (Moves puzzle) in
  material_display (document (final (fetchRandomPuzzle E (Some data) r s)))
  = mkMaterialDisplay true (white first) (black first) (white last) (black last)
      (diff_text (white last - white first), diff_class (white last - white first))
      (diff_text (black last - black first), diff_class (black last - black first)).
Proof.
  intros Hi Hc. unfold fetchRandomPuzzle. rewrite Hi.
  unfold new_Chess. rewrite Hc.
  unfold createNavigationControls, updateMoveDisplay, updateButtonStates,
    materialAnalysis, displayMaterialAnalysis, board_orientation, board_position,
    setTimeout, first_token.
  generalize (playMovesAndCalculateMaterial E (FEN puzzle) (Moves puzzle)).
  generalize (playMovesAndCalculateMaterial E (FEN puzzle)
                match split space (Moves puzzle) with m :: _ => m | [] => "" end).
  intros m1 m2.
  destruct (split space (Moves puzzle)) as [|m rest] eqn:Hs.
  - run_js; destruct (Chess.turn E g0); reflexivity.
  - run_js; destruct (Chess.turn E g0); simpl; destruct (truthy m); reflexivity.
Qed.

(** The first token of a split string splits into itself. *)
Lemma split_first_token (sep : ascii) (s : string) :
  split sep (match split sep s with m :: _ => m | [] => "" end)
  = [match split sep s with m :: _ => m | [] => "" end].
Proof.
  induction s as [|c rest IH]; simpl; [reflexivity|].
  destruct (Ascii.eqb c sep) eqn:Hc; [reflexivity|].
  destruct (split sep rest) as [|tok toks] eqn:Hs; simpl; rewrite Hc.
  - reflexivity.
  - now rewrite IH.
Qed.

Lemma replay_until_throw_completes (tokens : list string) :
  forall g g', replay_moves E g tokens = Some g' ->
               replay_until_throw E g tokens = g'.
Proof.
  induction tokens as [|t tokens IH]; intros g g' H; simpl in *; [congruence|].
  destruct (Chess.move E g (Chess.Str t true)); auto; discriminate.
Qed.

Lemma filter_all {A : Type} (p : A -> bool) (l : list A) :
  forallb p l = true -> filter p l = l.
Proof.
  induction l as [|a l IH]; simpl; [reflexivity|].
  intros H. apply andb_prop in H as [Ha Hl]. rewrite Ha. f_equal. auto.
Qed.

(** X12.  After a load the panel is visible, its start tally is the one
    after the first token alone, its end tally the one after the whole
    move string, and each difference cell shows end minus start, with a
    plus sign and the class positive exactly when it is above zero, the
    class negative exactly when it is below. *)
Theorem panel_after_load (data : list Puzzle) (r : Q) (puzzle : Puzzle)
        (g0 : Chess.Game E) (s : Globals E) :
  index data (random_index r (len data)) = Some puzzle ->
  Chess.create E (FEN puzzle) = Some g0 ->
  let panel := material_display (document (final (fetchRandomPuzzle E (Some data) r s))) in
  let first := playMovesAndCalculateMaterial E (FEN puzzle) (first_token (Moves puzzle)) in
  let last := playMovesAndCalculateMaterial E (FEN puzzle) (Moves puzzle) in
  visible panel = true
  /\ (start_white panel, start_black panel) = (white first, black first)
  /\ (end_white panel, end_black panel) = (white last, black last)
  /\ diff_white panel
     = (diff_text (end_white panel - start_white panel),
        diff_class (end_white panel - start_white panel))
  /\ diff_black panel
     = (diff_text (end_black panel - start_black panel),
        diff_class (end_black panel - start_black panel))
  /\ forall d,
      (diff_class d = positive <-> 0 < d)
      /\ (diff_class d = negative <-> d < 0)
      /\ (diff_class d = neutral <-> d = 0)
      /\ diff_text d = (if 0 <? d then "+" else "") ++ show d ++ " pts".
Proof.
  intros Hi Hc panel first last.
  unfold panel. rewrite (fetch_panel data r puzzle g0 s Hi Hc). simpl.
  repeat split; try reflexivity; unfold diff_class in *;
    destruct (Z.ltb_spec 0 d); destruct (Z.ltb_spec d 0);
    try lia; try discriminate; try reflexivity.
Qed.

Lemma playMoves_completes (fen moves : string) (g0 g : Chess.Game E) :
  Chess.create E fen = Some g0 ->
  forallb long_enough (split space moves) = true ->
  replay_moves E g0 (split space moves) = Some g ->
  playMovesAndCalculateMaterial E fen moves = calculateMaterial E (Chess.fen E g).
Proof.
  intros Hc Hlong Hr. unfold playMovesAndCalculateMaterial, try_return.
  rewrite Hc, play_moves_filter, filter_all by assumption.
  now rewrite (replay_until_throw_completes _ g0 g).
Qed.

(** X13.  When every token of the move string has at least four
    characters and no move throws, the panel counts the positions that the
    viewer shows: its start tally is the tally of the position on the
    widget after the setup timer, its end tally the tally of the position
    that [goToEnd] shows. *)
Theorem panel_counts_shown_positions (data : list Puzzle) (r : Q) (puzzle : Puzzle)
        (g0 gN : Chess.Game E) (s : Globals E) :
  index data (random_index r (len data)) = Some puzzle ->
  Chess.create E (FEN puzzle) = Some g0 ->
  replay_moves E g0 (split space (Moves puzzle)) = Some gN ->
  forallb long_enough (split space (Moves puzzle)) = true ->
  let s' := final (fetchRandomPuzzle E (Some data) r s) in
  let panel := material_display (document s') in
  let shown_first := calculateMaterial E (position (board (handle E s' timeout))) in
  let shown_last := calculateMaterial E (position (board (handle E s' click_end))) in
  (start_white panel, start_black panel) = (white shown_first, black shown_first)
  /\ (end_white panel, end_black panel) = (white shown_last, black shown_last).
Proof.
  intros Hi Hc Hr Hlong s' panel shown_first shown_last.
  destruct (fetch_loads E data r puzzle g0 s Hi Hc)
    as (Hf & Hm & Hcur & Hg & _ & _ & Ht).
  fold s' in Hf, Hm, Hcur, Hg, Ht.
  unfold panel, s'. rewrite (fetch_panel data r puzzle g0 s Hi Hc). simpl.
  destruct (split space (Moves puzzle)) as [|m rest] eqn:Hs;
    [now pose proof (split_nonempty space (Moves puzzle))|].
  assert (Hlm : long_enough m = true) by (simpl in Hlong; now apply andb_prop in Hlong).
  assert (Htruthy : truthy m = true) by (destruct m; [discriminate|reflexivity]).
  destruct (replay_moves_prefix E (m :: rest) 1 g0 gN Hr) as [g1 Hg1].
  change (firstn 1 (m :: rest)) with [m] in Hg1.
  split.
  - (* the start tally *)
    assert (Hfirst : playMovesAndCalculateMaterial E (FEN puzzle)
                       (first_token (Moves puzzle))
                     = calculateMaterial E (Chess.fen E g1)).
    { apply (playMoves_completes _ _ g0 g1); try assumption;
        unfold first_token; rewrite split_first_token, Hs; simpl;
        [now rewrite Hlm|assumption]. }
    rewrite Hfirst.
    assert (Hshown : position (board (handle E s' timeout)) = Chess.fen E g1).
    { simpl. rewrite Ht, Htruthy.
      destruct (timers s ++ [(playFirstMove, 800)])%list as [|[[] d] rest'] eqn:Hq;
        [now destruct (timers s)|].
      simpl. simpl in Hg1.
      destruct (Chess.move E g0 (Chess.Str m true)) as [g'| |] eqn:Hmove;
        [| |discriminate]; injection Hg1 as <-.
      - rewrite (playFirstMove_moved E (set_timers E rest' s') g0 g');
          try assumption; [reflexivity|]. simpl. now rewrite Hm.
      - rewrite (playFirstMove_null E (set_timers E rest' s') g0);
          try assumption; [reflexivity|]. simpl. now rewrite Hm. }
    unfold shown_first. now rewrite Hshown.
  - (* the end tally *)
    rewrite (playMoves_completes _ _ g0 gN); try assumption;
      try (now rewrite Hs).
    unfold shown_last. simpl.
    rewrite (goToEnd_shows E s' (FEN puzzle) g0 gN); try assumption;
      [reflexivity|now rewrite Hm].
Qed.

End Generic.

(** ** Runs on concrete puzzles *)

Lemma cursor_stays_in_range_witness :
  let s' := run null_engine
                (final (fetchRandomPuzzle null_engine (Some [opening_puzzle]) 0
                          (initial_globals null_engine)))
                [click_next; timeout; drop "d7" "d5"; click_next; click_next;
                 click_next; click_prev; click_end; drop "a2" "a9"] in
  -1 <= currentMoveIndex s' <= len (puzzleMoves s') - 1
  /\ puzzleMoves s' = split space (Moves opening_puzzle).
Proof.
  apply (cursor_stays_in_range null_engine [opening_puzzle] 0 opening_puzzle
           MiniChess.default_position).
  - vm_compute; reflexivity.
  - vm_compute; reflexivity.
Defined.

Lemma goToStart_repairs_witness :
  let s0 := final (fetchRandomPuzzle throwing_engine (Some [interrupted_puzzle]) 0
                     (initial_globals throwing_engine)) in
  let s1 := run throwing_engine s0
                ([timeout; drop "d7" "d5"; click_next; click_next; click_prev]
                   ++ [click_start]) in
  currentMoveIndex s1 = -1
  /\ game s1 = Some MiniChess.default_position
  /\ position (board s1) = FEN interrupted_puzzle
  /\ forall gN after,
      replay_moves throwing_engine MiniChess.default_position
                   (split space (Moves interrupted_puzzle)) = Some gN ->
      Forall navigation after ->
      shows_replay throwing_engine (run throwing_engine s1 after).
Proof.
  apply (goToStart_repairs throwing_engine [interrupted_puzzle] 0 interrupted_puzzle
           MiniChess.default_position).
  - vm_compute; reflexivity.
  - vm_compute; reflexivity.
Defined.

Lemma goToEnd_repairs_witness :
  let s0 := final (fetchRandomPuzzle null_engine (Some [opening_puzzle]) 0
                     (initial_globals null_engine)) in
  let s1 := run null_engine s0
                ([timeout; drop "d7" "d5"; drop "d2" "d4"; click_next] ++ [click_end]) in
  position (board s1)
  = "rnbqkbnr/pppp1ppp/8/4p3/4P3/5N2/PPPP1PPP/RNBQKB1R b KQkq - 1 2"
  /\ shows_replay null_engine s1.
Proof.
  pose (gN := match replay_moves null_engine MiniChess.default_position
                      (split space (Moves opening_puzzle)) with
              | Some g => g
              | None => MiniChess.default_position
              end).
  destruct (goToEnd_repairs null_engine [opening_puzzle] 0 opening_puzzle
              MiniChess.default_position gN (initial_globals null_engine)
              [timeout; drop "d7" "d5"; drop "d2" "d4"; click_next])
    as (_ & _ & Hp & Hs).
  - vm_compute; reflexivity.
  - vm_compute; reflexivity.
  - vm_compute; reflexivity.
  - split; [|exact Hs]. rewrite Hp. vm_compute; reflexivity.
Defined.

Lemma page_follows_cursor_witness :
  let s' := run null_engine
                (final (fetchRandomPuzzle null_engine (Some [opening_puzzle]) 0
                          (initial_globals null_engine)))
                ((if true then [timeout] else []) ++ [click_next; click_next]) in
  move_info (document s') = "Move 3: g1f3"
  /\ btn_next (document s') = true
  /\ handle null_engine s' click_next = s'.
Proof.
  pose (gN := match replay_moves null_engine MiniChess.default_position
                      (split space (Moves opening_puzzle)) with
              | Some g => g
              | None => MiniChess.default_position
              end).
  destruct (page_follows_cursor null_engine [opening_puzzle] 0 opening_puzzle
              MiniChess.default_position gN (initial_globals null_engine) true
              [click_next; click_next])
    as (Ht & _ & _ & Hn & _ & _ & Hnext & _).
  - vm_compute; reflexivity.
  - vm_compute; reflexivity.
  - vm_compute; reflexivity.
  - repeat constructor.
  - assert (Hb : btn_next
                   (document
                      (run null_engine
                         (final (fetchRandomPuzzle null_engine (Some [opening_puzzle]) 0
                                   (initial_globals null_engine)))
                         ((if true then [timeout] else []) ++ [click_next; click_next])))
                 = true) by (vm_compute; reflexivity).
    split; [rewrite Ht; vm_compute; reflexivity|].
    split; [exact Hb|]. exact (Hnext Hb).
Defined.

Lemma navigation_is_path_independent_witness :
  let s0 := run null_engine
                (final (fetchRandomPuzzle null_engine (Some [opening_puzzle]) 0
                          (initial_globals null_engine)))
                (if true then [timeout] else []) in
  run null_engine s0 [click_next; click_next; click_prev]
  = run null_engine s0
        [click_end; click_start; click_next; click_prev; click_next; click_next].
Proof.
  pose (gN := match replay_moves null_engine MiniChess.default_position
                      (split space (Moves opening_puzzle)) with
              | Some g => g
              | None => MiniChess.default_position
              end).
  apply (navigation_is_path_independent null_engine [opening_puzzle] 0 opening_puzzle
           MiniChess.default_position gN (initial_globals null_engine) true).
  - vm_compute; reflexivity.
  - vm_compute; reflexivity.
  - vm_compute; reflexivity.
  - repeat constructor.
  - repeat constructor.
  - vm_compute; reflexivity.
Defined.


Lemma panel_after_load_witness :
  let panel :=
    material_display
      (document (final (fetchRandomPuzzle null_engine (Some [capture_puzzle]) 0
                          (initial_globals null_engine)))) in
  (start_white panel, start_black panel) = (39, 39)
  /\ (end_white panel, end_black panel) = (39, 38)
  /\ diff_white panel = ("0 pts", neutral)
  /\ diff_black panel = ("-1 pts", negative).
Proof.
  destruct (panel_after_load null_engine [capture_puzzle] 0 capture_puzzle
              MiniChess.default_position (initial_globals null_engine))
    as (_ & Hs & He & Hw & Hb & _).
  - vm_compute; reflexivity.
  - vm_compute; reflexivity.
  - split; [rewrite Hs; vm_compute; reflexivity|].
    split; [rewrite He; vm_compute; reflexivity|].
    split; [rewrite Hw|rewrite Hb]; vm_compute; reflexivity.
Defined.

Lemma panel_counts_shown_positions_witness :
  let s' := final (fetchRandomPuzzle null_engine (Some [capture_puzzle]) 0
                     (initial_globals null_engine)) in
  let panel := material_display (document s') in
  let shown_first :=
    calculateMaterial null_engine (position (board (handle null_engine s' timeout))) in
  let shown_last :=
    calculateMaterial null_engine (position (board (handle null_engine s' click_end))) in
  (start_white panel, start_black panel) = (white shown_first, black shown_first)
  /\ (end_white panel, end_black panel) = (white shown_last, black shown_last).
Proof.
  pose (gN := match replay_moves null_engine MiniChess.default_position
                      (split space (Moves capture_puzzle)) with
              | Some g => g
              | None => MiniChess.default_position
              end).
  apply (panel_counts_shown_positions null_engine [capture_puzzle] 0 capture_puzzle
           MiniChess.default_position gN).
  - vm_compute; reflexivity.
  - vm_compute; reflexivity.
  - vm_compute; reflexivity.
  - vm_compute; reflexivity.
Defined.

(** With moves in standard algebraic notation the panel and the viewer
    part: the tokens are shorter than four characters, so the panel counts
    the starting position, whatever the rules object makes of them. *)
Example short_tokens_leave_panel_on_start :
  let panel :=
    material_display
      (document (final (fetchRandomPuzzle null_engine
                          (Some [mkPuzzle MiniChess.DEFAULT_POSITION "e4 d5 ed5"]) 0
                          (initial_globals null_engine)))) in
  (start_white panel, start_black panel, end_white panel, end_black panel)
  = (39, 39, 39, 39).
Proof. vm_compute; reflexivity. Qed.

(** With a rules object that throws, a failed [nextMove] leaves the page
    behind the cursor: the cursor is on 1, the text is still the one of
    move 1. *)
Example thrown_move_leaves_page_behind :
  let s := run throwing_engine (loaded throwing_engine interrupted_puzzle)
               [timeout; click_next] in
  currentMoveIndex s = 1 /\ move_info (document s) = "Move 1: e2e4".
Proof. split; vm_compute; reflexivity. Qed.

End PuzzleExtra.

(** * More properties of the random-move player *)

Module GameExtra.

Import RandomGame GameSpec.

Section Generic.

Context (E : Chess.Engine).

(** One invocation, by what [game.move] answers. *)
Lemma makeRandomMove_by_answer (s : Globals E) (r : Q) :
  makeRandomMove E r s
  = if Chess.isGameOver E (game s) then Normal tt s
    else match Chess.move E (game s) (drawn_move E (game s) r) with
         | Chess.Moved g' =>
             Normal tt (mkGlobals E (Chess.fen E g') g'
                                  (timers s ++ [(makeRandomMove_callback, 500)])%list)
         | Chess.Null =>
             Normal tt (mkGlobals E (Chess.fen E (game s)) (game s)
                                  (timers s ++ [(makeRandomMove_callback, 500)])%list)
         | Chess.Throws => Thrown s
         end.
Proof.
  unfold makeRandomMove, bind, gets, game_move, drawn_move.
  destruct (Chess.isGameOver E (game s)); [reflexivity|].
  destruct (Chess.move E (game s) _); reflexivity.
Qed.

Lemma fire_timers (s : Globals E) (r : Q) :
  (List.length (timers (fire E s r)) <= List.length (timers s))%nat.
Proof.
  unfold fire. destruct (timers s) as [|[[] d] rest] eqn:Ht; [rewrite Ht; lia|].
  rewrite makeRandomMove_by_answer. simpl.
  destruct (Chess.isGameOver E (game s)); [simpl; lia|].
  destruct (Chess.move E (game s) _); simpl; rewrite ?length_app; simpl; lia.
Qed.

(** X14.  The random-move player keeps a single timer chain: from the
    script's start, whatever the rules object answers and whatever is
    drawn, at most one invocation is pending at any time; and once none is
    pending, nothing changes any more. *)
Theorem single_timer_chain (draws more : list Q) :
  let s := run E (initial_globals E) draws in
  (List.length (timers s) <= 1)%nat
  /\ (timers s = [] -> run E s more = s).
Proof.
  intros s. split.
  - unfold s, run. clear s more.
    assert (H : forall (l : list Q) (s0 : Globals E),
               (List.length (timers s0) <= 1)%nat ->
               (List.length (timers (fold_left (fire E) l s0)) <= 1)%nat).
    { induction l as [|r l IH]; intros s0 H0; simpl; [assumption|].
      apply IH. pose proof (fire_timers s0 r). lia. }
    apply H. simpl. lia.
  - intros Ht. now apply GameProps.run_without_timers.
Qed.

Lemma fire_over (s : Globals E) (r : Q) :
  Chess.isGameOver E (game s) = true ->
  fire E s r = mkGlobals E (board s) (game s) (tl (timers s)).
Proof.
  intros Hover. unfold fire.
  destruct (timers s) as [|[[] d] rest] eqn:Ht.
  - destruct s; simpl in *; now subst.
  - rewrite makeRandomMove_by_answer. simpl. now rewrite Hover.
Qed.

(** X15.  A finished game is never touched again: whatever timers are
    still pending and whatever is drawn, later invocations change neither
    the rules object nor the widget, and they schedule nothing: the
    pending timers only run out. *)
Theorem finished_game_is_left_alone (draws : list Q) (s : Globals E) :
  Chess.isGameOver E (game s) = true ->
  game (run E s draws) = game s
  /\ board (run E s draws) = board s
  /\ timers (run E s draws) = skipn (List.length draws) (timers s).
Proof.
  unfold run. revert s.
  induction draws as [|r draws IH]; intros s Hover; simpl; [auto|].
  rewrite (fire_over s r Hover).
  destruct (IH (mkGlobals E (board s) (game s) (tl (timers s))) Hover)
    as (H1 & H2 & H3).
  rewrite H1, H2, H3. simpl. repeat split.
  destruct (timers s); [now rewrite skipn_nil|reflexivity].
Qed.

Lemma fire_shows_game (s : Globals E) (r : Q) :
  shows_game E s -> shows_game E (fire E s r).
Proof.
  intros Hs. unfold fire. destruct (timers s) as [|[[] d] rest]; [assumption|].
  rewrite makeRandomMove_by_answer. simpl.
  destruct (Chess.isGameOver E (game s)); [exact Hs|].
  destruct (Chess.move E (game s) _); simpl; [right; reflexivity|right; reflexivity|exact Hs].
Qed.

(** X16.  The widget of the random-move player never disagrees with the
    rules object: from the script's start, after any number of
    invocations, either no move has been made and the widget still shows
    ['start'], or the widget shows exactly [game.fen()]. *)
Theorem widget_shows_game (draws : list Q) :
  let s := run E (initial_globals E) draws in
  (board s = "start" /\ game s = Chess.initial E)
  \/ board s = Chess.fen E (game s).
Proof.
  intros s. unfold s, run.
  assert (H : forall (l : list Q) (s0 : Globals E),
             shows_game E s0 -> shows_game E (fold_left (fire E) l s0)).
  { induction l as [|r l IH]; intros s0 H0; simpl; [assumption|].
    apply IH. now apply fire_shows_game. }
  apply (H draws (initial_globals E)). left. split; reflexivity.
Qed.

(** X17.  A move that fails.  When [game.move] throws, the invocation
    changes nothing and schedules nothing, so that the chain of the script
    ends for good; when it answers [null], the unchanged position is
    pushed and the next invocation is scheduled as usual. *)
Theorem failed_random_move (s : Globals E) (r : Q) (more : list Q) :
  Chess.isGameOver E (game s) = false ->
  match Chess.move E (game s) (drawn_move E (game s) r) with
  | Chess.Throws =>
      makeRandomMove E r s = Thrown s
      /\ (timers s = [] -> run E (final (makeRandomMove E r s)) more = s)
  | Chess.Null =>
      makeRandomMove E r s
      = Normal tt (mkGlobals E (Chess.fen E (game s)) (game s)
                             (timers s ++ [(makeRandomMove_callback, 500)])%list)
  | Chess.Moved g' =>
      makeRandomMove E r s
      = Normal tt (mkGlobals E (Chess.fen E g') g'
                             (timers s ++ [(makeRandomMove_callback, 500)])%list)
  end.
Proof.
  intros Hover. rewrite makeRandomMove_by_answer, Hover.
  destruct (Chess.move E (game s) (drawn_move E (game s) r)); try reflexivity.
  split; [reflexivity|]. intros Ht. now apply GameProps.run_without_timers.
Qed.

End Generic.

Lemma finished_game_is_left_alone_witness :
  let E := PuzzleSpec.throwing_engine in
  let s := mkGlobals E "start" mated
                     [(makeRandomMove_callback, 500); (makeRandomMove_callback, 500)] in
  game (run E s [1 # 2; 1 # 3; 2 # 3]) = game s
  /\ board (run E s [1 # 2; 1 # 3; 2 # 3]) = board s
  /\ timers (run E s [1 # 2; 1 # 3; 2 # 3])
     = skipn (List.length [1 # 2; 1 # 3; 2 # 3]%Q) (timers s).
Proof.
  intros E s.
  apply (finished_game_is_left_alone E [1 # 2; 1 # 3; 2 # 3]%Q s).
  vm_compute; reflexivity.
Defined.

Lemma failed_random_move_witness :
  let E := PuzzleSpec.throwing_engine in
  let s := mkGlobals E "start" (Chess.initial E) [] in
  match Chess.move E (game s) (drawn_move E (game s) (1 # 2)) with
  | Chess.Throws =>
      makeRandomMove E (1 # 2) s = Thrown s
      /\ (timers s = [] -> run E (final (makeRandomMove E (1 # 2) s)) [1 # 3] = s)
  | Chess.Null =>
      makeRandomMove E (1 # 2) s
      = Normal tt (mkGlobals E (Chess.fen E (game s)) (game s)
                             (timers s ++ [(makeRandomMove_callback, 500)])%list)
  | Chess.Moved g' =>
      makeRandomMove E (1 # 2) s
      = Normal tt (mkGlobals E (Chess.fen E g') g'
                             (timers s ++ [(makeRandomMove_callback, 500)])%list)
  end.
Proof.
  intros E s.
  apply (failed_random_move E s (1 # 2) [1 # 3]%Q).
  vm_compute; reflexivity.
Defined.

End GameExtra.

(** * Properties of the start-up *)

Module StartupProps.

Import RandomPuzzle Startup.

(** One invocation, case by case. *)
Lemma initializeChessboard_cases (env : Environment) (p : Page) :
  initializeChessboard env p
  = Normal tt
      (if negb (Chessboard_defined env) || negb (Chess_defined env) then
         mkPage (board p) (material_hidden p) (listening p)
                (timers p ++ [(initializeChessboard_callback, 100)])
       else if Chessboard_throws env then
         mkPage (board p) true (listening p)
                (timers p ++ [(initializeChessboard_callback, 200)])
       else
         mkPage (Some (mkChessboard "start" orient_white)) true (listening p)
                (timers p ++ [(fetchRandomPuzzle_callback, 100)]))%list.
Proof.
  unfold initializeChessboard, try_catch, new_Chessboard, setTimeout, bind, modify,
    ret, throw.
  destruct (Chessboard_defined env), (Chess_defined env), (Chessboard_throws env);
    reflexivity.
Qed.

(** X18.  [initializeChessboard] never throws and always leaves exactly
    one more timer behind: a retry after 100 ms while a library is
    missing, a retry after 200 ms when creating the widget throws, and the
    puzzle fetch after 100 ms once the widget exists.  The widget is
    created, on ['start'] and from white's side, exactly when both
    libraries are there and the constructor returns; otherwise the global
    [board] is left as it was. *)
Theorem initializeChessboard_retries (env : Environment) (p : Page) :
  exists p' f delay,
    initializeChessboard env p = Normal tt p'
    /\ timers p' = (timers p ++ [(f, delay)])%list
    /\ listening p' = listening p
    /\ (if ready env
        then board p' = Some (mkChessboard "start" orient_white)
             /\ material_hidden p' = true
             /\ (f, delay) = (fetchRandomPuzzle_callback, 100)
        else board p' = board p
             /\ f = initializeChessboard_callback
             /\ delay = (if Chessboard_defined env && Chess_defined env
                         then 200 else 100)).
Proof.
  rewrite initializeChessboard_cases. unfold ready.
  destruct (Chessboard_defined env), (Chess_defined env), (Chessboard_throws env);
    simpl; eexists; eexists; eexists; repeat split; reflexivity.
Qed.

Lemma startup_run_snoc (p : Page) (events : list Event) (e : Event) :
  run p (events ++ [e]) = handle (run p events) e.
Proof. unfold run. now rewrite fold_left_app. Qed.

(** While the page is not ready, the board is missing and one retry is
    pending. *)
Lemma polling (loading : bool) (envs : list Environment) :
  envs <> [] ->
  forallb (fun env => negb (ready env)) envs = true ->
  let p := run (final (dom_ready_handler loading fresh_page))
               (startup_events loading envs) in
  board p = None
  /\ listening p = loading
  /\ exists delay, timers p = [(initializeChessboard_callback, delay)].
Proof.
  intros Hne Hwait.
  destruct envs as [|env rest]; [congruence|]. clear Hne.
  simpl in Hwait. apply andb_prop in Hwait as [Henv Hrest].
  unfold startup_events.
  assert (Hfirst : let p1 := handle (final (dom_ready_handler loading fresh_page))
                                    (first_event loading env) in
                   board p1 = None /\ listening p1 = loading
                   /\ exists delay, timers p1 = [(initializeChessboard_callback, delay)]).
  { unfold ready in Henv.
    destruct loading; simpl; rewrite initializeChessboard_cases;
      destruct (Chessboard_defined env), (Chess_defined env), (Chessboard_throws env);
      try discriminate; simpl; repeat split; eexists; reflexivity. }
  simpl run. unfold run. simpl fold_left.
  revert Hfirst.
  generalize (handle (final (dom_ready_handler loading fresh_page))
                     (first_event loading env)).
  clear Henv env.
  induction rest as [|env rest IH]; intros p1 Hp1; [exact Hp1|].
  simpl in Hrest. apply andb_prop in Hrest as [Henv Hrest].
  simpl. apply (IH Hrest).
  destruct Hp1 as (Hb & Hl & d & Ht).
  simpl. rewrite Ht. rewrite initializeChessboard_cases. unfold ready in Henv.
  destruct (Chessboard_defined env), (Chess_defined env), (Chessboard_throws env);
    try discriminate; simpl; rewrite ?Hb, ?Hl; repeat split; eexists; reflexivity.
Qed.

(** X19.  The start-up polls until the page is ready.  Whether the script
    runs while the document is loading or after, and however often a
    library is still missing or the widget cannot be created, every
    unsuccessful invocation leaves the global [board] null and one retry
    pending; the first invocation that finds the page ready creates the
    widget (the one the puzzle viewer starts from) and leaves the puzzle
    fetch as the only pending timer. *)
Theorem startup_polls_until_ready (loading : bool) (waiting : list Environment)
        (env : Environment) :
  forallb (fun e => negb (ready e)) waiting = true ->
  ready env = true ->
  let p0 := final (dom_ready_handler loading fresh_page) in
  (waiting <> [] -> board (run p0 (startup_events loading waiting)) = None)
  /\ run p0 (startup_events loading (waiting ++ [env]))
     = mkPage (Some (mkChessboard "start" orient_white)) true loading
              [(fetchRandomPuzzle_callback, 100)]
  /\ forall E, board (run p0 (startup_events loading (waiting ++ [env])))
               = Some (RandomPuzzle.board (initial_globals E)).
Proof.
  intros Hwait Hready p0.
  assert (Hrun : run p0 (startup_events loading (waiting ++ [env]))
                 = mkPage (Some (mkChessboard "start" orient_white)) true loading
                          [(fetchRandomPuzzle_callback, 100)]).
  { unfold ready in Hready.
    destruct waiting as [|e0 rest].
    - unfold p0. destruct loading; simpl; rewrite initializeChessboard_cases;
        destruct (Chessboard_defined env), (Chess_defined env), (Chessboard_throws env);
        try discriminate; reflexivity.
    - destruct (polling loading (e0 :: rest)) as (Hb & Hl & d & Ht);
        [discriminate|assumption|].
      fold p0 in Hb, Hl, Ht.
      assert (Hev : startup_events loading ((e0 :: rest) ++ [env])
                    = (startup_events loading (e0 :: rest) ++ [timeout env])%list)
        by (simpl; now rewrite map_app).
      rewrite Hev, startup_run_snoc.
      set (p := run p0 (startup_events loading (e0 :: rest))) in *.
      unfold handle. rewrite Ht, initializeChessboard_cases.
      destruct (Chessboard_defined env), (Chess_defined env), (Chessboard_throws env);
        try discriminate.
      simpl. now rewrite Hl. }
  split; [|split].
  - intros Hne. now destruct (polling loading waiting Hne Hwait) as (Hb & _).
  - exact Hrun.
  - intros E. now rewrite Hrun.
Qed.

Lemma startup_polls_until_ready_witness :
  let waiting := [mkEnvironment false false false;
                  mkEnvironment true false false;
                  mkEnvironment true true true] in
  let env := mkEnvironment true true false in
  let p0 := final (dom_ready_handler true fresh_page) in
  (waiting <> [] -> board (run p0 (startup_events true waiting)) = None)
  /\ run p0 (startup_events true (waiting ++ [env]))
     = mkPage (Some (mkChessboard "start" orient_white)) true true
              [(fetchRandomPuzzle_callback, 100)]
  /\ forall E, board (run p0 (startup_events true (waiting ++ [env])))
               = Some (RandomPuzzle.board (initial_globals E)).
Proof.
  apply (startup_polls_until_ready true
           [mkEnvironment false false false;
            mkEnvironment true false false;
            mkEnvironment true true true]
           (mkEnvironment true true false)); reflexivity.
Defined.

(** The delays on the way: 100 ms while a library is missing, 200 ms
    after the constructor has thrown. *)
Example retry_delays :
  map (fun envs => timers (run (final (dom_ready_handler false fresh_page))
                               (startup_events false envs)))
      [[mkEnvironment false true false];
       [mkEnvironment true false false];
       [mkEnvironment true true true];
       [mkEnvironment true true true; mkEnvironment true true false]]
  = [[(initializeChessboard_callback, 100)];
     [(initializeChessboard_callback, 100)];
     [(initializeChessboard_callback, 200)];
     [(fetchRandomPuzzle_callback, 100)]].
Proof. reflexivity. Qed.

End StartupProps.
